(** * Inventory synchronisation agent ([agents/inventory_sync.py])

    A shallow embedding of the two functions of the module,
    [attempt_provider_failover] and [sync_product_inventory], together with
    the properties of the stock reconciler and of the failover matcher.

    Conventions of the embedding.
    - JSON objects with a fixed set of keys are records; a response that may
      be [None] (or an empty, falsy dictionary) is an [option].
    - Identifiers, prices and counts are Python integers: [Z].
    - A Python [str] is a [string]; comparing two of them is the
      lexicographic comparison of their characters.
    - The [options] dictionary of a variant is an association list in
      insertion order (what [.items()] enumerates); dictionaries have no
      repeated key, which is the side condition [NoDup (options.*1)].
    - The dictionary [new_variants_map] is a [gmap], the set
      [available_catalog_variant_ids] a [gset].
    - The API client is a collaborator with a state of its own; every call
      threads that state and is appended to a log of outbound calls.
      Progress messages ([print]) and the pause between products
      ([time.sleep]) are not part of the model. *)

From stdpp Require Import base numbers list strings gmap sorting.

(** ** Python values *)

Module Py.

(** [a < b], [a == b], [a > b] on [str]. *)
Definition str_compare : string → string → comparison := String.compare.

(** Comparison of two [(key, value)] tuples: first components first. *)
Definition item_compare (a b : string * string) : comparison :=
  match str_compare a.1 b.1 with
  | Eq => str_compare a.2 b.2
  | c => c
  end.

(** [a <= b] on tuples, the order [sorted] puts its result in. *)
Definition item_le (a b : string * string) : Prop := item_compare a b ≠ Gt.

Global Instance item_le_dec a b : Decision (item_le a b).
Proof. unfold item_le. apply _. Defined.

(** [sorted(items)]: the ascending rearrangement of [items].  The order is
    total and two tuples that compare equal are equal, so the result does
    not depend on the sorting algorithm (lemma [sorted_unique]). *)
Definition sorted (items : list (string * string)) : list (string * string) :=
  merge_sort item_le items.

(** Truth value of an integer and of a list. *)
Definition truthy_int (n : Z) : bool := negb (n =? 0)%Z.
Definition truthy_list {A} (l : list A) : bool :=
  match l with [] => false | _ :: _ => true end.

(** Truth value of something that may be [None]. *)
Definition truthy_opt {A} (t : A → bool) (o : option A) : bool :=
  match o with None => false | Some a => t a end.

End Py.

(** ** Data model

    The dictionaries the two functions read and build.  Only the keys the
    code touches are fields. *)

(** A variant of a store product (an element of [product['variants']]). *)
Record store_variant := StoreVariant {
  sv_id : Z;
  sv_title : string;
  sv_price : Z;
  sv_is_enabled : bool;
  sv_options : list (string * string)
}.

(** A variant of a provider's catalog (an element of [data['variants']]). *)
Record catalog_variant := CatalogVariant {
  cv_id : Z;
  cv_title : string;
  cv_options : list (string * string)
}.

(** The answer of [get_blueprint_variants]; the key ['variants'] may be
    missing (an empty dictionary has no key at all). *)
Record catalog_data := CatalogData {
  cd_variants : option (list catalog_variant)
}.

(** An element of [blueprint_data['print_providers']]. *)
Record provider := Provider {
  prov_id : Z;
  prov_title : string
}.

(** The answer of [get_blueprint_details]. *)
Record blueprint_data := BlueprintData {
  bd_print_providers : list provider
}.

(** A store product. *)
Record product := Product {
  prod_id : string;
  prod_title : string;
  prod_blueprint_id : Z;
  prod_print_provider_id : Z;
  prod_variants : list store_variant
}.

(** The answer of [get_all_products]; the key ['data'] may be missing. *)
Record products_data := ProductsData {
  pd_data : option (list product)
}.

(** The dictionaries [{"id": .., "price": .., "is_enabled": ..}] that both
    functions append to their result lists. *)
Record payload_variant := PayloadVariant {
  pv_id : Z;
  pv_price : Z;
  pv_is_enabled : bool
}.

(** [final_payload]: the key ["print_provider_id"] is present only for a
    provider switch. *)
Record update_payload := UpdatePayload {
  up_print_provider_id : option Z;
  up_variants : list payload_variant
}.

(** ** The API client and the monad of outbound calls *)

(** Modelled from the spec: the class [PrintifyApiClient] comes from the
    module [api_clients], which is not among the sources.  Its four
    operations (section 6 of the specification) are taken as parameters;
    each one may read and change the state [W] of the upstream service. *)
Record PrintifyApiClient (W : Type) := ApiClient {
  get_all_products : W → option products_data * W;
  get_blueprint_details : Z → W → option blueprint_data * W;
  get_blueprint_variants : Z → Z → W → option catalog_data * W;
  update_product : string → update_payload → W → bool * W
}.
Global Arguments get_all_products {W} _ _.
Global Arguments get_blueprint_details {W} _ _ _.
Global Arguments get_blueprint_variants {W} _ _ _ _.
Global Arguments update_product {W} _ _ _ _.

(** One outbound call: its arguments and the answer it got. *)
Inductive call :=
  | GetAllProducts (answer : option products_data)
  | GetBlueprintDetails (blueprint_id : Z) (answer : option blueprint_data)
  | GetBlueprintVariants (blueprint_id provider_id : Z)
      (answer : option catalog_data)
  | UpdateProduct (product_id : string) (payload : update_payload)
      (answer : bool).

(** The state a run threads: the upstream service and the calls made so
    far, oldest first. *)
Record run_state (W : Type) := RunState {
  upstream : W;
  outbound : list call
}.
Global Arguments RunState {W} _ _.
Global Arguments upstream {W} _.
Global Arguments outbound {W} _.

Definition M (W A : Type) : Type := run_state W → A * run_state W.

Global Instance M_ret {W} : MRet (M W) := λ A a s, (a, s).

Global Instance M_bind {W} : MBind (M W) := λ A B k m s,
  let '(a, s') := m s in k a s'.

(** [for x in xs: body(x)] *)
Fixpoint for_each {W A} (xs : list A) (body : A → M W unit) : M W unit :=
  match xs with
  | [] => mret tt
  | x :: xs' => _ ← body x; for_each xs' body
  end.

Section calls.
Context {W : Type} (client : PrintifyApiClient W).

Definition call_get_all_products : M W (option products_data) := λ s,
  let '(answer, w) := get_all_products client (upstream s) in
  (answer, RunState w (outbound s ++ [GetAllProducts answer])).

Definition call_get_blueprint_details (blueprint_id : Z)
  : M W (option blueprint_data) := λ s,
  let '(answer, w) := get_blueprint_details client blueprint_id (upstream s) in
  (answer,
   RunState w (outbound s ++ [GetBlueprintDetails blueprint_id answer])).

Definition call_get_blueprint_variants (blueprint_id provider_id : Z)
  : M W (option catalog_data) := λ s,
  let '(answer, w) :=
    get_blueprint_variants client blueprint_id provider_id (upstream s) in
  (answer,
   RunState w
     (outbound s ++ [GetBlueprintVariants blueprint_id provider_id answer])).

Definition call_update_product (product_id : string)
  (payload : update_payload) : M W bool := λ s,
  let '(answer, w) := update_product client product_id payload (upstream s) in
  (answer,
   RunState w (outbound s ++ [UpdateProduct product_id payload answer])).

End calls.

(** ** [attempt_provider_failover] *)

(** [tuple(sorted(v['options'].items()))] *)
Definition options_tuple (opts : list (string * string))
  : list (string * string) := Py.sorted opts.

(** Line 33: the dictionary comprehension; a later variant with the same
    key replaces an earlier one. *)
Definition new_variants_map (variants : list catalog_variant)
  : gmap (list (string * string)) catalog_variant :=
  foldl (λ m v, <[options_tuple (cv_options v) := v]> m) ∅ variants.

(** Lines 42-46: the entry appended for a matched store variant. *)
Definition remapped_entry (matched_variant : catalog_variant)
  (store_variant : store_variant) : payload_variant :=
  {| pv_id := cv_id matched_variant;
     pv_price := sv_price store_variant;
     pv_is_enabled := sv_is_enabled store_variant |}.

(** Lines 35-50: the loop over [all_store_variants], started with
    [new_variants_payload = []].  It returns the list built so far and the
    flag [all_variants_mapped]; a variant without a match leaves the loop
    ([break]). *)
Fixpoint map_store_variants
  (index : gmap (list (string * string)) catalog_variant)
  (all_store_variants : list store_variant)
  (new_variants_payload : list payload_variant)
  : list payload_variant * bool :=
  match all_store_variants with
  | [] => (new_variants_payload, true)
  | store_variant :: rest =>
      let target_options_tuple := options_tuple (sv_options store_variant) in
      match index !! target_options_tuple with
      | Some matched_variant =>
          map_store_variants index rest
            (new_variants_payload ++
               [remapped_entry matched_variant store_variant])
      | None => (new_variants_payload, false)
      end
  end.

Section agent.
Context {W : Type} (client : PrintifyApiClient W).

(** Lines 21-57: the loop over [potential_providers]. *)
Fixpoint search_providers (blueprint_id current_provider_id : Z)
  (all_store_variants : list store_variant)
  (potential_providers : list provider)
  : M W (option Z * option (list payload_variant)) :=
  match potential_providers with
  | [] => mret (None, None)
  | provider :: rest =>
      let new_provider_id := prov_id provider in
      if (new_provider_id =? current_provider_id)%Z then
        search_providers blueprint_id current_provider_id
          all_store_variants rest
      else
        new_catalog_variants_data ←
          call_get_blueprint_variants client blueprint_id new_provider_id;
        match new_catalog_variants_data with
        | Some {| cd_variants := Some variants |} =>
            let '(new_variants_payload, all_variants_mapped) :=
              map_store_variants (new_variants_map variants)
                all_store_variants [] in
            if all_variants_mapped then
              mret (Some new_provider_id, Some new_variants_payload)
            else
              search_providers blueprint_id current_provider_id
                all_store_variants rest
        | _ =>
            search_providers blueprint_id current_provider_id
              all_store_variants rest
        end
  end.

Definition attempt_provider_failover (product : product)
  (all_store_variants : list store_variant)
  : M W (option Z * option (list payload_variant)) :=
  let blueprint_id := prod_blueprint_id product in
  let current_provider_id := prod_print_provider_id product in
  blueprint_data ← call_get_blueprint_details client blueprint_id;
  match blueprint_data with
  | None => mret (None, None)
  | Some blueprint_data =>
      search_providers blueprint_id current_provider_id all_store_variants
        (bd_print_providers blueprint_data)
  end.

End agent.

(** ** [sync_product_inventory] *)

(** Line 90: the set comprehension. *)
Definition available_catalog_variant_ids (variants : list catalog_variant)
  : gset Z := list_to_set (cv_id <$> variants).

(** The three variables the loop of lines 96-112 updates. *)
Record scan := Scan {
  variants_for_update : list payload_variant;
  requires_update : bool;
  potential_failover_needed : bool
}.

(** Line 98: the condition of the [if]. *)
Definition newly_out_of_stock (available : gset Z) (variant : store_variant)
  : bool :=
  sv_is_enabled variant && negb (bool_decide (sv_id variant ∈ available)).

(** Line 103: the condition of the [elif]. *)
Definition restocked (available : gset Z) (variant : store_variant) : bool :=
  negb (sv_is_enabled variant) && bool_decide (sv_id variant ∈ available).

(** Lines 97-112: one iteration. *)
Definition scan_variant (available : gset Z) (st : scan)
  (variant : store_variant) : scan :=
  let '(new_enabled_status, requires, potential) :=
    if newly_out_of_stock available variant then
      (false, true, true)
    else if restocked available variant then
      (true, true, potential_failover_needed st)
    else
      (sv_is_enabled variant, requires_update st,
       potential_failover_needed st) in
  {| variants_for_update :=
       variants_for_update st ++
         [ {| pv_id := sv_id variant;
              pv_price := sv_price variant;
              pv_is_enabled := new_enabled_status |} ];
     requires_update := requires;
     potential_failover_needed := potential |}.

(** Lines 92-112. *)
Definition scan_variants (available : gset Z)
  (store_variants : list store_variant) : scan :=
  foldl (scan_variant available)
        {| variants_for_update := [];
           requires_update := false;
           potential_failover_needed := false |}
        store_variants.

(** Lines 121-126: what is done with the answer of the matcher.  [a and b]
    is true when both truth values are; [None] is false, so in the first
    branch both components are present. *)
Definition final_payload_after_failover
  (result : option Z * option (list payload_variant))
  (variants_for_update : list payload_variant) : update_payload :=
  let '(new_provider_id, new_variants) := result in
  if Py.truthy_opt Py.truthy_int new_provider_id
     && Py.truthy_opt Py.truthy_list new_variants then
    {| up_print_provider_id := new_provider_id;
       up_variants := default [] new_variants |}
  else
    {| up_print_provider_id := None; up_variants := variants_for_update |}.

Section agent_sync.
Context {W : Type} (client : PrintifyApiClient W).

(** Lines 77-137: the body of the loop over [store_products]. *)
Definition sync_product (product : product) : M W unit :=
  let product_id := prod_id product in
  let blueprint_id := prod_blueprint_id product in
  let provider_id := prod_print_provider_id product in
  let store_variants := prod_variants product in
  live_catalog_variants_data ←
    call_get_blueprint_variants client blueprint_id provider_id;
  match live_catalog_variants_data with
  | Some {| cd_variants := Some variants |} =>
      let available := available_catalog_variant_ids variants in
      let st := scan_variants available store_variants in
      if negb (requires_update st) then mret tt
      else
        final_payload ←
          (if potential_failover_needed st then
             result ←
               attempt_provider_failover client product store_variants;
             mret (final_payload_after_failover result
                    (variants_for_update st))
           else
             mret {| up_print_provider_id := None;
                    up_variants := variants_for_update st |});
        response ← call_update_product client product_id final_payload;
        mret tt
  | _ => mret tt
  end.

(** Lines 60-137.  The client the source constructs at line 66 is the
    parameter [client]. *)
Definition sync_product_inventory : M W unit :=
  store_products_data ← call_get_all_products client;
  match store_products_data with
  | Some {| pd_data := Some store_products |} =>
      for_each store_products sync_product
  | _ => mret tt
  end.

End agent_sync.

(** ** Notions used in the statements *)

(** Lines 28-54 as a function of the answer to the catalog request: the
    complete remapped list when the candidate is accepted, nothing when it
    is skipped or rejected. *)
Definition evaluate_candidate (answer : option catalog_data)
  (all_store_variants : list store_variant) : option (list payload_variant) :=
  match answer with
  | Some {| cd_variants := Some variants |} =>
      let '(new_variants_payload, all_variants_mapped) :=
        map_store_variants (new_variants_map variants)
          all_store_variants [] in
      if all_variants_mapped then Some new_variants_payload else None
  | _ => None
  end.

(** A store variant and the entry lines 40-46 make for it from the index of
    a candidate catalog. *)
Definition remapped_from
  (index : gmap (list (string * string)) catalog_variant)
  (store_variant : store_variant) (entry : payload_variant) : Prop :=
  ∃ matched_variant,
    index !! options_tuple (sv_options store_variant) = Some matched_variant ∧
    entry = remapped_entry matched_variant store_variant.

(** The value of [new_enabled_status] when line 108 is reached. *)
Definition new_enabled_status (available : gset Z) (variant : store_variant)
  : bool :=
  if newly_out_of_stock available variant then false
  else if restocked available variant then true
  else sv_is_enabled variant.

(** The entry lines 108-112 append for a variant. *)
Definition reconciled_entry (available : gset Z) (variant : store_variant)
  : payload_variant :=
  {| pv_id := sv_id variant;
     pv_price := sv_price variant;
     pv_is_enabled := new_enabled_status available variant |}.

(** Following the specification (4.2, steps 3 to 6): the answer of a
    candidate fully satisfies the match when it has variant data and every
    store variant has, among the variants of the answer, one with the same
    (category, value) pairs.  The pairs are compared as rearrangements of
    each other, which for dictionaries (no repeated key) is having the same
    pairs.  This is stated on the data, not on the loop of lines 35-50. *)
Definition fully_matches (answer : option catalog_data)
  (store : list store_variant) : Prop :=
  ∃ variants,
    answer = Some {| cd_variants := Some variants |} ∧
    ∀ store_variant, store_variant ∈ store →
      ∃ cv, cv ∈ variants ∧ cv_options cv ≡ₚ sv_options store_variant.

(** The variant of a catalog that stands for a store variant: the last one,
    in the order of the catalog, with the same (category, value) pairs. *)
Definition last_with_same_options (variants : list catalog_variant)
  (store_variant : store_variant) (matched : catalog_variant) : Prop :=
  ∃ before after,
    variants = before ++ matched :: after ∧
    cv_options matched ≡ₚ sv_options store_variant ∧
    ∀ cv, cv ∈ after → ¬ cv_options cv ≡ₚ sv_options store_variant.

(** Two store variants with the same price, flag and options; their ids and
    titles are free. *)
Definition same_sale_data (a b : store_variant) : Prop :=
  sv_price a = sv_price b ∧ sv_is_enabled a = sv_is_enabled b ∧
  sv_options a = sv_options b.

(** The payload of lines 125 and 128: every variant with its newly computed
    flag, no provider. *)
Definition disable_restore_payload (variants_for_update : list payload_variant)
  : update_payload :=
  {| up_print_provider_id := None; up_variants := variants_for_update |}.

(** The payload of line 122. *)
Definition provider_switch_payload (new_provider_id : Z)
  (new_variants : list payload_variant) : update_payload :=
  {| up_print_provider_id := Some new_provider_id;
     up_variants := new_variants |}.

(** The request sent for a candidate provider. *)
Definition catalog_request (blueprint_id : Z) (p : provider)
  (answer : option catalog_data) : call :=
  GetBlueprintVariants blueprint_id (prov_id p) answer.

(** The entries of a provider list that are not the current provider. *)
Definition other_providers (current_provider_id : Z) (ps : list provider)
  : list provider :=
  filter (λ p, prov_id p ≠ current_provider_id) ps.

(** A call that only reads the catalog. *)
Definition is_catalog_read (c : call) : Prop :=
  match c with
  | GetBlueprintDetails _ _ | GetBlueprintVariants _ _ _ => True
  | _ => False
  end.

(** The stock request of line 84 for a product, with the answer a catalog
    table gives to it. *)
Definition stock_request (catalog : Z → Z → option catalog_data)
  (p : product) : call :=
  GetBlueprintVariants (prod_blueprint_id p) (prod_print_provider_id p)
    (catalog (prod_blueprint_id p) (prod_print_provider_id p)).

(** A product whose stock data, when the table has any, agrees with the
    flag of each of its variants. *)
Definition flags_follow_stock (catalog : Z → Z → option catalog_data)
  (p : product) : Prop :=
  match catalog (prod_blueprint_id p) (prod_print_provider_id p) with
  | Some {| cd_variants := Some variants |} =>
      ∀ variant, variant ∈ prod_variants p →
        sv_is_enabled variant
          = bool_decide
              (sv_id variant ∈ available_catalog_variant_ids variants)
  | _ => True
  end.

(** ** Sample data

    A client that answers from two tables and counts the calls it receives,
    and the products of the scenarios of the specification. *)

Module Demo.

Definition table_client (details : Z → option blueprint_data)
  (catalog : Z → Z → option catalog_data) (listing : option products_data)
  : PrintifyApiClient nat :=
  {| get_all_products w := (listing, S w);
     get_blueprint_details blueprint_id w := (details blueprint_id, S w);
     get_blueprint_variants blueprint_id provider_id w :=
       (catalog blueprint_id provider_id, S w);
     update_product product_id payload w := (true, S w) |}.

Definition size_S : list (string * string) := [("size", "S")].
Definition size_M : list (string * string) := [("size", "M")].
Definition size_L_black : list (string * string) :=
  [("size", "L"); ("color", "Black")].
Definition black_size_L : list (string * string) :=
  [("color", "Black"); ("size", "L")].

(** Provider 10 is the current one and only has variant 2 in stock; 20 has
    no size S; 30, 40 and 0 have every size; 50 has one variant without
    options; the others have no catalog. *)
Definition catalog (blueprint_id provider_id : Z) : option catalog_data :=
  if (provider_id =? 10)%Z then
    Some {| cd_variants := Some [CatalogVariant 2 "M" size_M] |}
  else if (provider_id =? 20)%Z then
    Some {| cd_variants := Some [CatalogVariant 98 "M" size_M] |}
  else if (provider_id =? 30)%Z then
    Some {| cd_variants := Some [CatalogVariant 99 "S" size_S;
                                 CatalogVariant 97 "M" size_M;
                                 CatalogVariant 96 "L" black_size_L] |}
  else if (provider_id =? 40)%Z then
    Some {| cd_variants := Some [CatalogVariant 89 "S" size_S;
                                 CatalogVariant 87 "M" size_M] |}
  else if (provider_id =? 0)%Z then
    Some {| cd_variants := Some [CatalogVariant 79 "S" size_S;
                                 CatalogVariant 77 "M" size_M] |}
  else if (provider_id =? 50)%Z then
    Some {| cd_variants := Some [CatalogVariant 69 "Default" []] |}
  else None.

(** Blueprint 5 lists the providers 10, 20, 30, 40; blueprint 6 lists 10
    and 0; blueprint 7 lists 10 and 20; blueprint 9 lists 10 and 50. *)
Definition details (blueprint_id : Z) : option blueprint_data :=
  if (blueprint_id =? 5)%Z then
    Some {| bd_print_providers :=
              [Provider 10 "Current"; Provider 20 "Partial";
               Provider 30 "First"; Provider 40 "Second"] |}
  else if (blueprint_id =? 6)%Z then
    Some {| bd_print_providers := [Provider 10 "Current"; Provider 0 "Zero"] |}
  else if (blueprint_id =? 7)%Z then
    Some {| bd_print_providers :=
              [Provider 10 "Current"; Provider 20 "Partial"] |}
  else if (blueprint_id =? 9)%Z then
    Some {| bd_print_providers :=
              [Provider 10 "Current"; Provider 50 "Plain"] |}
  else None.

Definition client : PrintifyApiClient nat := table_client details catalog None.

Definition start : run_state nat := RunState 0%nat [].

(** Enabled, and missing from the catalog of provider 10. *)
Definition small : store_variant := StoreVariant 1 "S" 1999 true size_S.
(** Disabled, and present in the catalog of provider 10. *)
Definition medium : store_variant := StoreVariant 2 "M" 2099 false size_M.
(** Enabled and present. *)
Definition medium_on : store_variant := StoreVariant 2 "M" 2099 true size_M.
(** Disabled and missing. *)
Definition small_off : store_variant := StoreVariant 1 "S" 1999 false size_S.
(** Enabled and missing, with the options in another order than the
    catalog of provider 30 has them. *)
Definition large : store_variant :=
  StoreVariant 3 "L" 2199 true size_L_black.
(** Enabled and missing, without options. *)
Definition plain : store_variant := StoreVariant 4 "Default" 999 true [].

Definition tee (blueprint_id : Z) (variants : list store_variant) : product :=
  Product "tee" "Tee" blueprint_id 10 variants.

Definition in_stock_at_10 : gset Z :=
  available_catalog_variant_ids [CatalogVariant 2 "M" size_M].

(** A store of two products: one in sync at provider 10, one whose provider
    70 has no catalog. *)
Definition shop : list product :=
  [tee 5 [medium_on; small_off];
   Product "mug" "Mug" 5 70 [small]].

Definition shop_client : PrintifyApiClient nat :=
  table_client details catalog (Some {| pd_data := Some shop |}).

End Demo.

(** * Properties *)

(** ** Order lemmas for [str] and for tuples of [str] *)

Section str_order.

Lemma ascii_compare_refl a : Ascii.compare a a = Eq.
Proof. unfold Ascii.compare. apply N.compare_refl. Qed.

Lemma ascii_compare_trans a b c o :
  Ascii.compare a b = o → Ascii.compare b c = o → Ascii.compare a c = o.
Proof.
  unfold Ascii.compare. destruct o; intros H1 H2.
  - apply N.compare_eq_iff in H1, H2. apply N.compare_eq_iff. congruence.
  - rewrite N.compare_lt_iff in *. lia.
  - rewrite N.compare_gt_iff in *. lia.
Qed.

Lemma str_compare_refl s : Py.str_compare s s = Eq.
Proof.
  unfold Py.str_compare. induction s as [|a s IH]; simpl; [done|].
  by rewrite ascii_compare_refl.
Qed.

Lemma str_compare_eq s t : Py.str_compare s t = Eq ↔ s = t.
Proof.
  split; [apply String.compare_eq_iff|intros ->; apply str_compare_refl].
Qed.

Lemma str_compare_trans s t u o :
  Py.str_compare s t = o → Py.str_compare t u = o → Py.str_compare s u = o.
Proof.
  unfold Py.str_compare. revert t u.
  induction s as [|a s IH]; intros [|b t] [|c u]; simpl; try congruence.
  destruct (Ascii.compare a b) eqn:Hab, (Ascii.compare b c) eqn:Hbc;
    try congruence.
  - apply Ascii.compare_eq_iff in Hab, Hbc. subst.
    rewrite ascii_compare_refl. apply IH.
  - apply Ascii.compare_eq_iff in Hab. subst. by rewrite Hbc.
  - apply Ascii.compare_eq_iff in Hab. subst. by rewrite Hbc.
  - apply Ascii.compare_eq_iff in Hbc. subst. by rewrite Hab.
  - by rewrite (ascii_compare_trans a b c Lt).
  - apply Ascii.compare_eq_iff in Hbc. subst. by rewrite Hab.
  - by rewrite (ascii_compare_trans a b c Gt).
Qed.

Lemma item_compare_refl a : Py.item_compare a a = Eq.
Proof. unfold Py.item_compare. by rewrite !str_compare_refl. Qed.

Lemma item_compare_eq a b : Py.item_compare a b = Eq ↔ a = b.
Proof.
  split; [|intros ->; apply item_compare_refl].
  destruct a as [k v], b as [k' v']. unfold Py.item_compare. simpl.
  destruct (Py.str_compare k k') eqn:Hk; try done.
  intros Hv. apply str_compare_eq in Hk, Hv. congruence.
Qed.

Lemma item_compare_antisym a b :
  Py.item_compare a b = CompOpp (Py.item_compare b a).
Proof.
  unfold Py.item_compare, Py.str_compare.
  rewrite (String.compare_antisym a.1 b.1).
  destruct (String.compare b.1 a.1); simpl; try done.
  apply String.compare_antisym.
Qed.

Lemma item_compare_trans a b c o :
  Py.item_compare a b = o → Py.item_compare b c = o →
  Py.item_compare a c = o.
Proof.
  unfold Py.item_compare.
  destruct (Py.str_compare a.1 b.1) eqn:Hab,
           (Py.str_compare b.1 c.1) eqn:Hbc; try congruence.
  - rewrite (str_compare_trans _ _ _ _ Hab Hbc). apply str_compare_trans.
  - apply str_compare_eq in Hab. rewrite Hab, Hbc. congruence.
  - apply str_compare_eq in Hab. rewrite Hab, Hbc. congruence.
  - apply str_compare_eq in Hbc. rewrite <-Hbc, Hab. congruence.
  - by rewrite (str_compare_trans _ _ _ _ Hab Hbc).
  - apply str_compare_eq in Hbc. rewrite <-Hbc, Hab. congruence.
  - by rewrite (str_compare_trans _ _ _ _ Hab Hbc).
Qed.

Global Instance item_le_total : Total Py.item_le.
Proof.
  intros a b. unfold Py.item_le. rewrite (item_compare_antisym b a).
  destruct (Py.item_compare a b); simpl; auto.
Qed.

Global Instance item_le_trans : Transitive Py.item_le.
Proof.
  intros a b c. unfold Py.item_le. intros Hab Hbc Hac.
  destruct (Py.item_compare a b) eqn:E1; [| |done].
  - apply item_compare_eq in E1. congruence.
  - destruct (Py.item_compare b c) eqn:E2; [| |done].
    + apply item_compare_eq in E2. congruence.
    + rewrite (item_compare_trans _ _ _ _ E1 E2) in Hac. done.
Qed.

Global Instance item_le_antisym : AntiSymm (=) Py.item_le.
Proof.
  intros a b. unfold Py.item_le. rewrite (item_compare_antisym b a).
  destruct (Py.item_compare a b) eqn:E; simpl; try done.
  intros _ _. by apply item_compare_eq.
Qed.

(** [sorted] returns an ascending rearrangement of its argument... *)
Lemma sorted_Sorted items : Sorted Py.item_le (Py.sorted items).
Proof. apply Sorted_merge_sort, _. Qed.

Lemma sorted_Permutation items : Py.sorted items ≡ₚ items.
Proof. apply merge_sort_Permutation. Qed.

(** ... and there is only one. *)
Lemma sorted_unique items l :
  Sorted Py.item_le l → l ≡ₚ items → Py.sorted items = l.
Proof.
  intros Hl Hp. apply (Sorted_unique Py.item_le); [apply sorted_Sorted|done|].
  by rewrite sorted_Permutation.
Qed.

Lemma sorted_perm_eq items items' :
  Py.sorted items = Py.sorted items' ↔ items ≡ₚ items'.
Proof.
  split.
  - intros E. by rewrite <-(sorted_Permutation items), E, sorted_Permutation.
  - intros Hp. apply sorted_unique; [apply sorted_Sorted|].
    by rewrite sorted_Permutation.
Qed.

Lemma sorted_nil_inv items : Py.sorted items = [] → items = [].
Proof.
  intros E. apply Permutation_nil_r. by rewrite <-E, sorted_Permutation.
Qed.

End str_order.

(** ** The loop over the variants of a product (lines 92-112) *)

Section reconciler.
Context (available : gset Z).

Lemma newly_out_of_stock_true variant :
  newly_out_of_stock available variant = true ↔
  sv_is_enabled variant = true ∧ sv_id variant ∉ available.
Proof.
  unfold newly_out_of_stock.
  rewrite andb_true_iff, negb_true_iff, bool_decide_eq_false. done.
Qed.

Lemma restocked_true variant :
  restocked available variant = true ↔
  sv_is_enabled variant = false ∧ sv_id variant ∈ available.
Proof.
  unfold restocked.
  rewrite andb_true_iff, negb_true_iff, bool_decide_eq_true. done.
Qed.

Lemma scan_variants_snoc store variant :
  scan_variants available (store ++ [variant]) =
  scan_variant available (scan_variants available store) variant.
Proof. unfold scan_variants. by rewrite foldl_app. Qed.

Lemma scan_variant_entries st variant :
  variants_for_update (scan_variant available st variant) =
  variants_for_update st ++ [reconciled_entry available variant].
Proof.
  unfold scan_variant, reconciled_entry, new_enabled_status.
  destruct (newly_out_of_stock available variant);
    [|destruct (restocked available variant)]; done.
Qed.

Lemma scan_variants_entries store :
  variants_for_update (scan_variants available store) =
  reconciled_entry available <$> store.
Proof.
  induction store as [|variant store IH] using rev_ind; [done|].
  by rewrite scan_variants_snoc, scan_variant_entries, IH, fmap_app.
Qed.

Lemma new_enabled_status_cases variant :
  (sv_is_enabled variant = true → sv_id variant ∉ available →
   new_enabled_status available variant = false) ∧
  (sv_is_enabled variant = false → sv_id variant ∈ available →
   new_enabled_status available variant = true) ∧
  ((sv_is_enabled variant = true → sv_id variant ∈ available) →
   (sv_is_enabled variant = false → sv_id variant ∉ available) →
   new_enabled_status available variant = sv_is_enabled variant).
Proof.
  unfold new_enabled_status, newly_out_of_stock, restocked.
  destruct (sv_is_enabled variant); simpl; case_bool_decide; simpl;
    repeat split; try done; intros; exfalso; unfold not in *; auto.
Qed.

Lemma scan_variants_requires_update store :
  requires_update (scan_variants available store) = true ↔
  ∃ variant, variant ∈ store ∧
    (newly_out_of_stock available variant = true ∨
     restocked available variant = true).
Proof.
  induction store as [|last store IH] using rev_ind.
  - split; [done|]. intros (v & Hv & _). by apply elem_of_nil in Hv.
  - rewrite scan_variants_snoc. unfold scan_variant.
    destruct (newly_out_of_stock available last) eqn:Hn;
      [|destruct (restocked available last) eqn:Hr]; simpl.
    + split; [|done]. intros _. exists last. rewrite elem_of_app, list_elem_of_singleton. auto.
    + split; [|done]. intros _. exists last. rewrite elem_of_app, list_elem_of_singleton. auto.
    + rewrite IH. split; intros (v & Hv & Hc).
      * exists v. rewrite elem_of_app. auto.
      * apply elem_of_app in Hv as [Hv|Hv]; [by exists v|].
        apply list_elem_of_singleton in Hv as ->.
        destruct Hc; congruence.
Qed.

Lemma scan_variants_potential_failover store :
  potential_failover_needed (scan_variants available store) = true ↔
  ∃ variant, variant ∈ store ∧ newly_out_of_stock available variant = true.
Proof.
  induction store as [|last store IH] using rev_ind.
  - split; [done|]. intros (v & Hv & _). by apply elem_of_nil in Hv.
  - rewrite scan_variants_snoc. unfold scan_variant.
    destruct (newly_out_of_stock available last) eqn:Hn;
      [|destruct (restocked available last) eqn:Hr]; simpl.
    + split; [|done]. intros _. exists last. rewrite elem_of_app, list_elem_of_singleton. auto.
    + rewrite IH. split; intros (v & Hv & Hc).
      * exists v. rewrite elem_of_app. auto.
      * apply elem_of_app in Hv as [Hv|Hv]; [by exists v|].
        apply list_elem_of_singleton in Hv as ->. congruence.
    + rewrite IH. split; intros (v & Hv & Hc).
      * exists v. rewrite elem_of_app. auto.
      * apply elem_of_app in Hv as [Hv|Hv]; [by exists v|].
        apply list_elem_of_singleton in Hv as ->. congruence.
Qed.

Lemma scan_variants_potential_requires store :
  potential_failover_needed (scan_variants available store) = true →
  requires_update (scan_variants available store) = true.
Proof.
  rewrite scan_variants_potential_failover, scan_variants_requires_update.
  intros (v & ? & ?). exists v. auto.
Qed.

Lemma newly_out_of_stock_potential store :
  (∃ variant, variant ∈ store ∧ sv_is_enabled variant = true ∧
     sv_id variant ∉ available) →
  potential_failover_needed (scan_variants available store) = true ∧
  store ≠ [].
Proof.
  intros (v & Hv & Hen & Hout). split.
  - apply scan_variants_potential_failover. exists v. split; [done|].
    by apply newly_out_of_stock_true.
  - intros ->. by apply elem_of_nil in Hv.
Qed.

End reconciler.

(** ** The index of a candidate catalog (line 33) *)

Section index.

Lemma new_variants_map_snoc variants v :
  new_variants_map (variants ++ [v]) =
  <[options_tuple (cv_options v) := v]> (new_variants_map variants).
Proof. unfold new_variants_map. by rewrite foldl_app. Qed.

Lemma new_variants_map_lookup_Some variants key matched :
  new_variants_map variants !! key = Some matched →
  matched ∈ variants ∧ options_tuple (cv_options matched) = key.
Proof.
  induction variants as [|v variants IH] using rev_ind; [done|].
  rewrite new_variants_map_snoc, lookup_insert.
  case_decide as Hk.
  - intros [= <-]. split; [|done].
    rewrite elem_of_app, list_elem_of_singleton. auto.
  - intros [? ?]%IH. split; [|done]. rewrite elem_of_app. auto.
Qed.

Lemma new_variants_map_lookup_None variants key :
  new_variants_map variants !! key = None ↔
  ∀ cv, cv ∈ variants → options_tuple (cv_options cv) ≠ key.
Proof.
  induction variants as [|v variants IH] using rev_ind.
  - split; [|done]. intros _ cv Hcv. by apply elem_of_nil in Hcv.
  - rewrite new_variants_map_snoc, lookup_insert. case_decide as Hk.
    + split; [done|]. intros Hall. exfalso. apply (Hall v); [|done].
      rewrite elem_of_app, list_elem_of_singleton. auto.
    + rewrite IH. split; intros Hall cv Hcv.
      * apply elem_of_app in Hcv as [Hcv|Hcv]; [by apply Hall|].
        by apply list_elem_of_singleton in Hcv as ->.
      * apply Hall. rewrite elem_of_app. auto.
Qed.

Lemma new_variants_map_lookup_elem variants cv :
  cv ∈ variants →
  ∃ matched,
    new_variants_map variants !! options_tuple (cv_options cv) = Some matched.
Proof.
  intros Hcv.
  destruct (new_variants_map variants !! options_tuple (cv_options cv))
    as [matched|] eqn:E; [by exists matched|].
  rewrite new_variants_map_lookup_None in E. by destruct (E cv Hcv).
Qed.

End index.

(** ** The loop over the store variants (lines 35-50) *)

Section remapping.
Context (index : gmap (list (string * string)) catalog_variant).

Lemma map_store_variants_acc store acc :
  map_store_variants index store acc =
  ((acc ++ (map_store_variants index store []).1),
   (map_store_variants index store []).2).
Proof.
  revert acc. induction store as [|sv store IH]; intros acc; simpl.
  - by rewrite app_nil_r.
  - destruct (index !! _) as [matched|]; simpl; [|by rewrite app_nil_r].
    rewrite (IH (acc ++ _)), (IH [_]). simpl. by rewrite <-app_assoc.
Qed.

Lemma map_store_variants_cons sv store :
  map_store_variants index (sv :: store) [] =
  match index !! options_tuple (sv_options sv) with
  | Some matched =>
      (remapped_entry matched sv :: (map_store_variants index store []).1,
       (map_store_variants index store []).2)
  | None => ([], false)
  end.
Proof.
  simpl. destruct (index !! _) as [matched|]; [|done].
  by rewrite map_store_variants_acc.
Qed.

Lemma map_store_variants_complete store payload :
  map_store_variants index store [] = (payload, true) ↔
  Forall2 (remapped_from index) store payload.
Proof.
  revert payload. induction store as [|sv store IH]; intros payload.
  - simpl. split.
    + intros [= <-]. constructor.
    + intros ->%Forall2_nil_inv_l. done.
  - rewrite map_store_variants_cons. split.
    + destruct (index !! _) as [matched|] eqn:Hm; [|done].
      destruct (map_store_variants index store []) as [pl ok] eqn:E.
      simpl. intros [= <- ->]. constructor; [by exists matched|].
      by apply IH.
    + intros (e & pl & (matched & Hm & ->) & Hrest & ->)%Forall2_cons_inv_l.
      rewrite Hm. apply IH in Hrest. by rewrite Hrest.
Qed.

Lemma map_store_variants_rejected store :
  (map_store_variants index store []).2 = false ↔
  ∃ sv, sv ∈ store ∧ index !! options_tuple (sv_options sv) = None.
Proof.
  induction store as [|sv store IH].
  - simpl. split; [done|]. intros (sv & Hsv & _). by apply elem_of_nil in Hsv.
  - rewrite map_store_variants_cons.
    destruct (index !! options_tuple (sv_options sv)) as [matched|] eqn:Hm;
      simpl.
    + rewrite IH. split; intros (sv' & Hsv' & Hnone).
      * exists sv'. split; [by right|done].
      * apply elem_of_cons in Hsv' as [->|Hsv']; [congruence|by exists sv'].
    + split; [|done]. intros _. exists sv. split; [by left|done].
Qed.

End remapping.

Lemma evaluate_candidate_Some answer store payload :
  evaluate_candidate answer store = Some payload ↔
  ∃ variants,
    answer = Some {| cd_variants := Some variants |} ∧
    Forall2 (remapped_from (new_variants_map variants)) store payload.
Proof.
  unfold evaluate_candidate. split.
  - destruct answer as [[[variants|]]|]; try done.
    destruct (map_store_variants _ store []) as [pl ok] eqn:E.
    destruct ok; [|done]. intros [= <-]. exists variants. split; [done|].
    by apply map_store_variants_complete.
  - intros (variants & -> & Hall).
    apply map_store_variants_complete in Hall. by rewrite Hall.
Qed.

Lemma evaluate_candidate_length answer store payload :
  evaluate_candidate answer store = Some payload →
  length payload = length store.
Proof.
  intros (variants & _ & Hall)%evaluate_candidate_Some.
  symmetry. by eapply Forall2_length.
Qed.

Lemma evaluate_candidate_unmatched variants store sv :
  sv ∈ store →
  new_variants_map variants !! options_tuple (sv_options sv) = None →
  evaluate_candidate (Some {| cd_variants := Some variants |}) store = None.
Proof.
  intros Hsv Hnone. unfold evaluate_candidate.
  destruct (map_store_variants _ store []) as [pl ok] eqn:E.
  destruct ok; [|done].
  assert ((map_store_variants (new_variants_map variants) store []).2 = false)
    as Hf by (apply map_store_variants_rejected; eauto).
  rewrite E in Hf. done.
Qed.

(** ** The loop of lines 35-50 against the data *)

Lemma new_variants_map_lookup_last variants key matched :
  new_variants_map variants !! key = Some matched →
  ∃ before after,
    variants = before ++ matched :: after ∧
    options_tuple (cv_options matched) = key ∧
    ∀ cv, cv ∈ after → options_tuple (cv_options cv) ≠ key.
Proof.
  induction variants as [|v variants IH] using rev_ind; [done|].
  rewrite new_variants_map_snoc, lookup_insert. case_decide as Hk.
  - intros [= <-]. exists variants, []. split; [done|]. split; [done|].
    intros cv Hcv. by apply elem_of_nil in Hcv.
  - intros (before & after & -> & Hkey & Hafter)%IH.
    exists before, (after ++ [v]). split; [by rewrite <-app_assoc|].
    split; [done|]. intros cv Hcv.
    apply elem_of_app in Hcv as [Hcv|Hcv]; [by apply Hafter|].
    by apply list_elem_of_singleton in Hcv as ->.
Qed.

Lemma remapped_from_last_with_same_options variants store_variant entry :
  remapped_from (new_variants_map variants) store_variant entry →
  ∃ matched,
    last_with_same_options variants store_variant matched ∧
    entry = {| pv_id := cv_id matched;
               pv_price := sv_price store_variant;
               pv_is_enabled := sv_is_enabled store_variant |}.
Proof.
  intros (matched & (before & after & Hsplit & Hkey & Hafter)
                      %new_variants_map_lookup_last & ->).
  exists matched. split; [|done]. exists before, after.
  split; [done|]. split; [by apply sorted_perm_eq|].
  intros cv Hcv Hperm. apply (Hafter cv Hcv). by apply sorted_perm_eq.
Qed.

Lemma evaluate_candidate_fully_matches answer store :
  is_Some (evaluate_candidate answer store) ↔ fully_matches answer store.
Proof.
  split.
  - intros [payload Hsome].
    destruct answer as [[[variants|]]|]; try done.
    exists variants. split; [done|]. intros sv Hsv.
    destruct (new_variants_map variants !! options_tuple (sv_options sv))
      as [matched|] eqn:Hm.
    + apply new_variants_map_lookup_Some in Hm as [Hin Hkey].
      exists matched. split; [done|]. by apply sorted_perm_eq.
    + by rewrite (evaluate_candidate_unmatched variants store sv) in Hsome.
  - intros (variants & -> & Hall). unfold evaluate_candidate.
    destruct (map_store_variants _ store []) as [pl ok] eqn:E.
    destruct ok; [by eexists|]. exfalso.
    assert ((map_store_variants (new_variants_map variants) store []).2
            = false) as Hf by by rewrite E.
    apply map_store_variants_rejected in Hf as (sv & Hsv & Hnone).
    destruct (Hall sv Hsv) as (cv & Hcv & Hperm).
    rewrite new_variants_map_lookup_None in Hnone.
    apply (Hnone cv Hcv). by apply sorted_perm_eq.
Qed.

Lemma evaluate_candidate_None answer store :
  evaluate_candidate answer store = None ↔ ¬ fully_matches answer store.
Proof.
  rewrite <-evaluate_candidate_fully_matches, <-eq_None_not_Some. done.
Qed.

(** ** The loop over the candidate providers (lines 21-57) *)

Section search.
Context {W : Type} (client : PrintifyApiClient W).
Context (blueprint_id current_provider_id : Z).
Context (store : list store_variant).

Local Abbreviation search :=
  (search_providers client blueprint_id current_provider_id store).

Lemma call_get_blueprint_variants_log provider_id s answer s1 :
  call_get_blueprint_variants client blueprint_id provider_id s
    = (answer, s1) →
  outbound s1 =
    outbound s ++ [GetBlueprintVariants blueprint_id provider_id answer] ∧
  get_blueprint_variants client blueprint_id provider_id (upstream s)
    = (answer, upstream s1).
Proof.
  unfold call_get_blueprint_variants.
  destruct (get_blueprint_variants _ _ _ _) as [a w].
  by intros [= <- <-].
Qed.

Lemma search_providers_skip p rest s :
  prov_id p = current_provider_id → search (p :: rest) s = search rest s.
Proof. intros Hp. simpl. by rewrite (proj2 (Z.eqb_eq _ _) Hp). Qed.

Lemma search_providers_query p rest s :
  prov_id p ≠ current_provider_id →
  search (p :: rest) s =
  let '(answer, s1) :=
    call_get_blueprint_variants client blueprint_id (prov_id p) s in
  match evaluate_candidate answer store with
  | Some payload => ((Some (prov_id p), Some payload), s1)
  | None => search rest s1
  end.
Proof.
  intros Hp. simpl. rewrite (proj2 (Z.eqb_neq _ _) Hp).
  unfold mbind, M_bind, mret, M_ret.
  destruct (call_get_blueprint_variants _ _ _ _) as [answer s1].
  unfold evaluate_candidate.
  destruct answer as [[[variants|]]|]; try done.
  destruct (map_store_variants _ store []) as [pl ok]. by destruct ok.
Qed.

(** The matcher answers with a provider and a list, or with neither. *)
Lemma search_providers_shape providers s :
  (search providers s).1 = (None, None) ∨
  ∃ new_provider_id payload,
    (search providers s).1 = (Some new_provider_id, Some payload).
Proof.
  revert s. induction providers as [|p rest IH]; intros s; [by left|].
  destruct (decide (prov_id p = current_provider_id)) as [Hp|Hp].
  - rewrite search_providers_skip by done. apply IH.
  - rewrite search_providers_query by done.
    destruct (call_get_blueprint_variants _ _ _ _) as [answer s1].
    destruct (evaluate_candidate answer store) as [payload|]; [|apply IH].
    right. by exists (prov_id p), payload.
Qed.

(** What a successful search did, call by call. *)
Lemma search_providers_success providers s new_provider_id payload s' :
  search providers s = ((Some new_provider_id, Some payload), s') →
  ∃ earlier winner later rejected answer,
    providers = earlier ++ winner :: later ∧
    prov_id winner = new_provider_id ∧
    new_provider_id ≠ current_provider_id ∧
    evaluate_candidate answer store = Some payload ∧
    length rejected = length (other_providers current_provider_id earlier) ∧
    Forall (λ a, evaluate_candidate a store = None) rejected ∧
    outbound s' =
      outbound s ++
      zip_with (catalog_request blueprint_id)
        (other_providers current_provider_id earlier) rejected ++
      [catalog_request blueprint_id winner answer].
Proof.
  revert s. induction providers as [|p rest IH]; intros s; [done|].
  destruct (decide (prov_id p = current_provider_id)) as [Hp|Hp].
  - rewrite search_providers_skip by done.
    intros (earlier & winner & later & rejected & answer
            & -> & Hw & Hne & He & Hlen & Hrej & Hlog)%IH.
    exists (p :: earlier), winner, later, rejected, answer.
    unfold other_providers in *. rewrite filter_cons_False by naive_solver.
    done.
  - rewrite search_providers_query by done.
    destruct (call_get_blueprint_variants _ _ _ _) as [answer s1] eqn:Hcall.
    apply call_get_blueprint_variants_log in Hcall as [Hlog1 _].
    destruct (evaluate_candidate answer store) as [pl|] eqn:He.
    + intros [= <- <- <-].
      exists [], p, rest, [], answer. simpl. by repeat split.
    + intros (earlier & winner & later & rejected & answer'
              & -> & Hw & Hne & He' & Hlen & Hrej & Hlog)%IH.
      exists (p :: earlier), winner, later, (answer :: rejected), answer'.
      unfold other_providers in *. rewrite filter_cons_True by done.
      simpl. repeat split; try done.
      * by rewrite Hlen.
      * by constructor.
      * rewrite Hlog, Hlog1, <-app_assoc. done.
Qed.

(** What a failed search did: every other provider was asked, in order,
    and none was accepted. *)
Lemma search_providers_failure providers s s' :
  search providers s = ((None, None), s') →
  ∃ rejected,
    length rejected = length (other_providers current_provider_id providers) ∧
    Forall (λ a, evaluate_candidate a store = None) rejected ∧
    outbound s' =
      outbound s ++
      zip_with (catalog_request blueprint_id)
        (other_providers current_provider_id providers) rejected.
Proof.
  revert s. induction providers as [|p rest IH]; intros s.
  - intros [= <-]. exists []. by rewrite app_nil_r.
  - destruct (decide (prov_id p = current_provider_id)) as [Hp|Hp].
    + rewrite search_providers_skip by done.
      intros (rejected & Hlen & Hrej & Hlog)%IH. exists rejected.
      unfold other_providers in *. rewrite filter_cons_False by naive_solver.
      done.
    + rewrite search_providers_query by done.
      destruct (call_get_blueprint_variants _ _ _ _) as [answer s1] eqn:Hcall.
      apply call_get_blueprint_variants_log in Hcall as [Hlog1 _].
      destruct (evaluate_candidate answer store) as [pl|] eqn:He; [done|].
      intros (rejected & Hlen & Hrej & Hlog)%IH.
      exists (answer :: rejected).
      unfold other_providers in *. rewrite filter_cons_True by done.
      simpl. repeat split.
      * by rewrite Hlen.
      * by constructor.
      * rewrite Hlog, Hlog1, <-app_assoc. done.
Qed.

(** First fit, for an upstream service whose catalog answers depend on the
    request only. *)
Lemma search_providers_first_fit catalog earlier winner later payload s :
  (∀ provider_id w,
     (get_blueprint_variants client blueprint_id provider_id w).1
       = catalog provider_id) →
  Forall (λ p, prov_id p = current_provider_id ∨
               evaluate_candidate (catalog (prov_id p)) store = None)
         earlier →
  prov_id winner ≠ current_provider_id →
  evaluate_candidate (catalog (prov_id winner)) store = Some payload →
  (search (earlier ++ winner :: later) s).1
    = (Some (prov_id winner), Some payload).
Proof.
  intros Hstable Hearlier Hne Hwin. revert s.
  induction Hearlier as [|p earlier Hp _ IH]; intros s; simpl app.
  - rewrite search_providers_query by done.
    destruct (call_get_blueprint_variants _ _ _ _) as [answer s1] eqn:Hcall.
    apply call_get_blueprint_variants_log in Hcall as [_ Hans].
    specialize (Hstable (prov_id winner) (upstream s)).
    rewrite Hans in Hstable. simpl in Hstable. subst answer.
    by rewrite Hwin.
  - destruct (decide (prov_id p = current_provider_id)) as [Hcur|Hcur].
    + rewrite search_providers_skip by done. apply IH.
    + rewrite search_providers_query by done.
      destruct (call_get_blueprint_variants _ _ _ _) as [answer s1] eqn:Hcall.
      apply call_get_blueprint_variants_log in Hcall as [_ Hans].
      specialize (Hstable (prov_id p) (upstream s)).
      rewrite Hans in Hstable. simpl in Hstable. subst answer.
      destruct Hp as [Hp|Hp]; [done|]. rewrite Hp. apply IH.
Qed.

End search.

(** ** The two functions, step by step *)

Section runs.
Context {W : Type} (client : PrintifyApiClient W).

Lemma call_get_blueprint_details_log blueprint_id s answer s1 :
  call_get_blueprint_details client blueprint_id s = (answer, s1) →
  outbound s1 = outbound s ++ [GetBlueprintDetails blueprint_id answer] ∧
  get_blueprint_details client blueprint_id (upstream s)
    = (answer, upstream s1).
Proof.
  unfold call_get_blueprint_details.
  destruct (get_blueprint_details _ _ _) as [a w].
  by intros [= <- <-].
Qed.

Lemma call_update_product_log product_id payload s :
  ∃ answer s1,
    call_update_product client product_id payload s = (answer, s1) ∧
    outbound s1 = outbound s ++ [UpdateProduct product_id payload answer].
Proof.
  unfold call_update_product.
  destruct (update_product _ _ _ _) as [a w]. by eexists _, _.
Qed.

Lemma attempt_provider_failover_run product store s :
  attempt_provider_failover client product store s =
  let '(answer, s1) :=
    call_get_blueprint_details client (prod_blueprint_id product) s in
  match answer with
  | None => ((None, None), s1)
  | Some blueprint_data =>
      search_providers client (prod_blueprint_id product)
        (prod_print_provider_id product) store
        (bd_print_providers blueprint_data) s1
  end.
Proof.
  unfold attempt_provider_failover, mbind, M_bind, mret, M_ret.
  destruct (call_get_blueprint_details _ _ _) as [[bd|] s1]; done.
Qed.

Lemma attempt_provider_failover_shape product store s :
  (attempt_provider_failover client product store s).1 = (None, None) ∨
  ∃ new_provider_id payload,
    (attempt_provider_failover client product store s).1
      = (Some new_provider_id, Some payload).
Proof.
  rewrite attempt_provider_failover_run.
  destruct (call_get_blueprint_details _ _ _) as [[bd|] s1]; [|by left].
  apply search_providers_shape.
Qed.

(** A provider returned by the matcher comes with a list as long as the
    list of store variants. *)
Lemma attempt_provider_failover_length product store s id payload s' :
  attempt_provider_failover client product store s
    = ((Some id, Some payload), s') →
  length payload = length store.
Proof.
  rewrite attempt_provider_failover_run.
  destruct (call_get_blueprint_details _ _ _) as [[bd|] s1]; [|done].
  intros (_ & _ & _ & _ & answer & _ & _ & _ & He & _)
    %search_providers_success.
  by eapply evaluate_candidate_length.
Qed.

Lemma sync_product_run product s :
  sync_product client product s =
  let '(live, s1) :=
    call_get_blueprint_variants client (prod_blueprint_id product)
      (prod_print_provider_id product) s in
  match live with
  | Some {| cd_variants := Some variants |} =>
      let st :=
        scan_variants (available_catalog_variant_ids variants)
          (prod_variants product) in
      if requires_update st then
        let '(final_payload, s2) :=
          if potential_failover_needed st then
            let '(result, s2) :=
              attempt_provider_failover client product
                (prod_variants product) s1 in
            (final_payload_after_failover result (variants_for_update st),
             s2)
          else (disable_restore_payload (variants_for_update st), s1) in
        let '(response, s3) :=
          call_update_product client (prod_id product) final_payload s2 in
        (tt, s3)
      else (tt, s1)
  | _ => (tt, s1)
  end.
Proof.
  unfold sync_product, mbind, M_bind, mret, M_ret.
  destruct (call_get_blueprint_variants _ _ _ _) as [[[[variants|]]|] s1];
    try done.
  destruct (requires_update _); simpl; [|done].
  destruct (potential_failover_needed _); [|done].
  destruct (attempt_provider_failover _ _ _ _) as [result s2]. done.
Qed.

Lemma for_each_cons {A} (x : A) xs (body : A → M W unit) s :
  for_each (x :: xs) body s = for_each xs body (body x s).2.
Proof.
  simpl. unfold mbind, M_bind. by destruct (body x s) as [[] s1].
Qed.

Lemma sync_product_inventory_run s :
  sync_product_inventory client s =
  let '(answer, s1) := call_get_all_products client s in
  match answer with
  | Some {| pd_data := Some store_products |} =>
      for_each store_products (sync_product client) s1
  | _ => (tt, s1)
  end.
Proof.
  unfold sync_product_inventory, mbind, M_bind, mret, M_ret.
  by destruct (call_get_all_products _ _) as [[[[ps|]]|] s1].
Qed.

(** The branch of lines 119-126: some variant is newly out of stock. *)
Lemma sync_product_failover_branch product s variants s1 result s2 :
  call_get_blueprint_variants client (prod_blueprint_id product)
    (prod_print_provider_id product) s
    = (Some {| cd_variants := Some variants |}, s1) →
  potential_failover_needed
    (scan_variants (available_catalog_variant_ids variants)
       (prod_variants product)) = true →
  attempt_provider_failover client product (prod_variants product) s1
    = (result, s2) →
  ∃ response s3,
    sync_product client product s = (tt, s3) ∧
    outbound s3 =
      outbound s2 ++
      [UpdateProduct (prod_id product)
         (final_payload_after_failover result
            (variants_for_update
               (scan_variants (available_catalog_variant_ids variants)
                  (prod_variants product))))
         response].
Proof.
  intros Hlive Hpot Hmatch. rewrite sync_product_run, Hlive. simpl.
  rewrite (scan_variants_potential_requires _ _ Hpot), Hpot, Hmatch.
  destruct (call_update_product_log (prod_id product)
    (final_payload_after_failover result
       (variants_for_update
          (scan_variants (available_catalog_variant_ids variants)
             (prod_variants product)))) s2)
    as (response & s3 & -> & Hlog).
  by exists response, s3.
Qed.

End runs.

Lemma elem_of_available_catalog_variant_ids variants id :
  id ∈ available_catalog_variant_ids variants ↔
  ∃ cv, cv ∈ variants ∧ cv_id cv = id.
Proof.
  unfold available_catalog_variant_ids.
  rewrite elem_of_list_to_set, list_elem_of_fmap.
  split; intros (cv & ? & ?); exists cv; done.
Qed.

Lemma final_payload_after_failover_switch result variants_for_update :
  up_print_provider_id
    (final_payload_after_failover result variants_for_update) ≠ None →
  ∃ new_provider_id new_variants,
    result = (Some new_provider_id, Some new_variants) ∧
    new_provider_id ≠ 0%Z ∧ new_variants ≠ [] ∧
    final_payload_after_failover result variants_for_update
      = provider_switch_payload new_provider_id new_variants.
Proof.
  destruct result as [[id|] [[|e l]|]]; simpl; try done;
    unfold Py.truthy_int; destruct (Z.eqb_spec id 0); simpl; try done.
  intros _. by exists id, (e :: l).
Qed.

Lemma final_payload_after_failover_truthy id new_variants vfu :
  id ≠ 0%Z → new_variants ≠ [] →
  final_payload_after_failover (Some id, Some new_variants) vfu
    = provider_switch_payload id new_variants.
Proof.
  intros Hid Hl. simpl. unfold Py.truthy_int.
  destruct (Z.eqb_spec id 0); [done|]. by destruct new_variants.
Qed.

Lemma final_payload_after_failover_falsy result vfu :
  result.1 = None ∨ result.1 = Some 0%Z ∨
  result.2 = None ∨ result.2 = Some [] →
  final_payload_after_failover result vfu = disable_restore_payload vfu.
Proof.
  destruct result as [[id|] [[|e l]|]]; simpl;
    unfold Py.truthy_int; try destruct (Z.eqb_spec id 0); simpl; try done;
    intros [?|[?|[?|?]]]; congruence.
Qed.

(** * The stock reconciler *)

(** C1. For every product and live snapshot, each variant is classified on
    its own: the entry made for the variant at position [i] carries its id
    and its price; it is disabled when the variant is enabled and its id is
    absent from the available ids, enabled when the variant is disabled and
    its id is present, and keeps the variant's flag otherwise.  The entry
    does not depend on the position: the same variant gets the same entry
    at any position of any other variant list. *)
Theorem reconciler_classifies_each_variant
  (variants : list catalog_variant) (product : product)
  (i : nat) (variant : store_variant) :
  prod_variants product !! i = Some variant →
  ∃ entry,
    variants_for_update
      (scan_variants (available_catalog_variant_ids variants)
         (prod_variants product)) !! i = Some entry ∧
    pv_id entry = sv_id variant ∧
    pv_price entry = sv_price variant ∧
    (sv_is_enabled variant = true →
     sv_id variant ∉ available_catalog_variant_ids variants →
     pv_is_enabled entry = false) ∧
    (sv_is_enabled variant = false →
     sv_id variant ∈ available_catalog_variant_ids variants →
     pv_is_enabled entry = true) ∧
    ((sv_is_enabled variant = true →
      sv_id variant ∈ available_catalog_variant_ids variants) →
     (sv_is_enabled variant = false →
      sv_id variant ∉ available_catalog_variant_ids variants) →
     pv_is_enabled entry = sv_is_enabled variant) ∧
    (∀ (other : list store_variant) (j : nat),
       other !! j = Some variant →
       variants_for_update
         (scan_variants (available_catalog_variant_ids variants) other) !! j
         = Some entry).
Proof.
  intros Hi.
  exists (reconciled_entry (available_catalog_variant_ids variants) variant).
  rewrite scan_variants_entries, list_lookup_fmap, Hi.
  split; [done|]. split; [done|]. split; [done|].
  destruct (new_enabled_status_cases
              (available_catalog_variant_ids variants) variant)
    as (Hout & Hback & Hsame).
  split; [exact Hout|]. split; [exact Hback|]. split; [exact Hsame|].
  intros other j Hj.
  by rewrite scan_variants_entries, list_lookup_fmap, Hj.
Qed.

Lemma reconciler_classifies_each_variant_witness :
  prod_variants (Demo.tee 5 [Demo.medium; Demo.small]) !! 1%nat
    = Some Demo.small ∧
  ∃ entry,
    variants_for_update
      (scan_variants
         (available_catalog_variant_ids [CatalogVariant 2 "M" Demo.size_M])
         (prod_variants (Demo.tee 5 [Demo.medium; Demo.small]))) !! 1%nat
      = Some entry ∧
    pv_id entry = 1%Z ∧ pv_is_enabled entry = false.
Proof.
  split; [reflexivity|].
  destruct (reconciler_classifies_each_variant
              [CatalogVariant 2 "M" Demo.size_M]
              (Demo.tee 5 [Demo.medium; Demo.small]) 1 Demo.small eq_refl)
    as (entry & Hentry & Hid & _ & Hout & _).
  exists entry. split; [exact Hentry|]. split; [exact Hid|].
  apply Hout; [reflexivity|].
  rewrite elem_of_available_catalog_variant_ids.
  intros (cv & Hcv & Hid'). apply list_elem_of_singleton in Hcv. subst cv.
  discriminate Hid'.
Defined.

(** C6. If every enabled variant is present in the live snapshot and every
    disabled variant is absent from it, checking the product makes no call
    beyond the stock request itself: the matcher is not invoked (no
    blueprint request) and no update is sent. *)
Theorem in_sync_product_makes_no_call {W} (client : PrintifyApiClient W)
  (product : product) (variants : list catalog_variant)
  (s s1 : run_state W) :
  call_get_blueprint_variants client (prod_blueprint_id product)
    (prod_print_provider_id product) s
    = (Some {| cd_variants := Some variants |}, s1) →
  (∀ variant, variant ∈ prod_variants product →
     sv_is_enabled variant = true →
     sv_id variant ∈ available_catalog_variant_ids variants) →
  (∀ variant, variant ∈ prod_variants product →
     sv_is_enabled variant = false →
     sv_id variant ∉ available_catalog_variant_ids variants) →
  sync_product client product s = (tt, s1) ∧
  outbound s1 =
    outbound s ++
    [GetBlueprintVariants (prod_blueprint_id product)
       (prod_print_provider_id product)
       (Some {| cd_variants := Some variants |})].
Proof.
  intros Hlive Hon Hoff.
  split; [|by apply call_get_blueprint_variants_log in Hlive as [? _]].
  rewrite sync_product_run, Hlive. simpl.
  destruct (requires_update _) eqn:Hreq; [|done].
  apply scan_variants_requires_update in Hreq as (v & Hv & [Hc|Hc]).
  - apply newly_out_of_stock_true in Hc as [He Hn]. by destruct Hn; apply Hon.
  - apply restocked_true in Hc as [He Hn]. by destruct (Hoff v Hv He).
Qed.

Lemma in_sync_product_makes_no_call_witness :
  sync_product Demo.client (Demo.tee 5 [Demo.medium_on; Demo.small_off])
    Demo.start
  = (tt,
     RunState 1%nat
       [GetBlueprintVariants 5 10
          (Some {| cd_variants := Some [CatalogVariant 2 "M" Demo.size_M] |})]).
Proof.
  refine (proj1 (in_sync_product_makes_no_call Demo.client
            (Demo.tee 5 [Demo.medium_on; Demo.small_off])
            [CatalogVariant 2 "M" Demo.size_M] Demo.start _ eq_refl _ _)).
  - intros v Hv Hen. rewrite elem_of_available_catalog_variant_ids.
    exists (CatalogVariant 2 "M" Demo.size_M).
    split; [by apply list_elem_of_singleton|].
    apply elem_of_cons in Hv as [->|Hv]; [reflexivity|].
    apply list_elem_of_singleton in Hv as ->. discriminate Hen.
  - intros v Hv Hen. rewrite elem_of_available_catalog_variant_ids.
    intros (cv & Hcv & Hid). apply list_elem_of_singleton in Hcv. subst cv.
    apply elem_of_cons in Hv as [->|Hv]; [discriminate Hen|].
    apply list_elem_of_singleton in Hv as ->. discriminate Hid.
Defined.

(** C7. If some variant is restocked and no variant is newly out of stock,
    the matcher is never invoked (no blueprint request is made) and the
    payload sent is the disable/restore list, which holds
    [is_enabled = true] for each restocked variant. *)
Theorem restock_only_skips_failover {W} (client : PrintifyApiClient W)
  (product : product) (variants : list catalog_variant)
  (s s1 : run_state W) :
  call_get_blueprint_variants client (prod_blueprint_id product)
    (prod_print_provider_id product) s
    = (Some {| cd_variants := Some variants |}, s1) →
  (∃ variant, variant ∈ prod_variants product ∧
     sv_is_enabled variant = false ∧
     sv_id variant ∈ available_catalog_variant_ids variants) →
  (∀ variant, variant ∈ prod_variants product →
     sv_is_enabled variant = true →
     sv_id variant ∈ available_catalog_variant_ids variants) →
  ∃ sent response s2,
    sync_product client product s = (tt, s2) ∧
    outbound s2 =
      outbound s ++
      [GetBlueprintVariants (prod_blueprint_id product)
         (prod_print_provider_id product)
         (Some {| cd_variants := Some variants |});
       UpdateProduct (prod_id product) (disable_restore_payload sent)
         response] ∧
    sent =
      variants_for_update
        (scan_variants (available_catalog_variant_ids variants)
           (prod_variants product)) ∧
    (∀ variant, variant ∈ prod_variants product →
       sv_is_enabled variant = false →
       sv_id variant ∈ available_catalog_variant_ids variants →
       {| pv_id := sv_id variant; pv_price := sv_price variant;
          pv_is_enabled := true |} ∈ sent).
Proof.
  intros Hlive (r & Hr & Hroff & Hrin) Hon.
  set (available := available_catalog_variant_ids variants) in *.
  assert (requires_update (scan_variants available (prod_variants product))
          = true) as Hreq.
  { apply scan_variants_requires_update. exists r. split; [done|].
    right. by apply restocked_true. }
  assert (potential_failover_needed
            (scan_variants available (prod_variants product)) = false)
    as Hpot.
  { apply not_true_is_false.
    intros (v & Hv & [He Hn]%newly_out_of_stock_true)
      %scan_variants_potential_failover.
    by destruct Hn; apply Hon. }
  destruct (call_update_product_log client (prod_id product)
    (disable_restore_payload
       (variants_for_update (scan_variants available (prod_variants product))))
    s1) as (response & s2 & Hupd & Hlog).
  exists (variants_for_update
            (scan_variants available (prod_variants product))), response, s2.
  split; [|split; [|split; [done|]]].
  - rewrite sync_product_run, Hlive. simpl. fold available.
    by rewrite Hreq, Hpot, Hupd.
  - apply call_get_blueprint_variants_log in Hlive as [Hlog1 _].
    by rewrite Hlog, Hlog1, <-app_assoc.
  - intros v Hv Hoff Hin. rewrite scan_variants_entries.
    apply list_elem_of_fmap. exists v. split; [|done].
    unfold reconciled_entry. f_equal.
    by destruct (new_enabled_status_cases available v) as (_ & -> & _).
Qed.

Lemma restock_only_skips_failover_witness :
  (∃ sent response s2,
     sync_product Demo.client (Demo.tee 5 [Demo.medium; Demo.medium_on])
       Demo.start = (tt, s2) ∧
     outbound s2 =
       [GetBlueprintVariants 5 10
          (Some {| cd_variants := Some [CatalogVariant 2 "M" Demo.size_M] |});
        UpdateProduct "tee" (disable_restore_payload sent) response] ∧
     {| pv_id := 2; pv_price := 2099; pv_is_enabled := true |} ∈ sent).
Proof.
  assert (2%Z ∈ available_catalog_variant_ids
                  [CatalogVariant 2 "M" Demo.size_M]) as Hin.
  { rewrite elem_of_available_catalog_variant_ids.
    exists (CatalogVariant 2 "M" Demo.size_M).
    split; [by apply list_elem_of_singleton|reflexivity]. }
  destruct (restock_only_skips_failover Demo.client
              (Demo.tee 5 [Demo.medium; Demo.medium_on])
              [CatalogVariant 2 "M" Demo.size_M] Demo.start _ eq_refl)
    as (sent & response & s2 & Hrun & Hlog & _ & Hsent).
  - exists Demo.medium. split; [by left|]. split; [reflexivity|exact Hin].
  - intros v Hv _. apply elem_of_cons in Hv as [->|Hv]; [exact Hin|].
    apply list_elem_of_singleton in Hv as ->. exact Hin.
  - exists sent, response, s2. split; [exact Hrun|]. split; [exact Hlog|].
    apply (Hsent Demo.medium); [by left|reflexivity|exact Hin].
Defined.

(** * The failover matcher *)

Section matcher_frame.
Context {W : Type} (client : PrintifyApiClient W).

Lemma map_store_variants_same_sale_data index store store' acc :
  Forall2 same_sale_data store store' →
  map_store_variants index store acc = map_store_variants index store' acc.
Proof.
  intros Hagree. revert acc.
  induction Hagree as [|a b store store' (Hp & He & Ho) _ IH]; intros acc;
    [done|].
  simpl. rewrite Ho. destruct (index !! _) as [matched|]; [|done].
  unfold remapped_entry. rewrite Hp, He. apply IH.
Qed.

Lemma evaluate_candidate_same_sale_data answer store store' :
  Forall2 same_sale_data store store' →
  evaluate_candidate answer store = evaluate_candidate answer store'.
Proof.
  intros Hagree. unfold evaluate_candidate.
  destruct answer as [[[variants|]]|]; try done.
  by rewrite (map_store_variants_same_sale_data _ store store').
Qed.

Lemma search_providers_same_sale_data blueprint_id current_provider_id
  store store' providers s :
  Forall2 same_sale_data store store' →
  search_providers client blueprint_id current_provider_id store providers s
  = search_providers client blueprint_id current_provider_id store'
      providers s.
Proof.
  intros Hagree. revert s.
  induction providers as [|p rest IH]; intros s; [done|].
  destruct (decide (prov_id p = current_provider_id)) as [Hp|Hp].
  - rewrite !search_providers_skip by done. apply IH.
  - rewrite !search_providers_query by done.
    destruct (call_get_blueprint_variants _ _ _ _) as [answer s1].
    rewrite (evaluate_candidate_same_sale_data _ store store') by done.
    destruct (evaluate_candidate answer store'); [done|apply IH].
Qed.

Lemma attempt_provider_failover_same_sale_data product store store' s :
  Forall2 same_sale_data store store' →
  attempt_provider_failover client product store s
  = attempt_provider_failover client product store' s.
Proof.
  intros Hagree. rewrite !attempt_provider_failover_run.
  destruct (call_get_blueprint_details _ _ _) as [[bd|] s1]; [|done].
  by apply search_providers_same_sale_data.
Qed.

(** A candidate whose catalog lacks a match for one store variant is left
    behind. *)
Lemma search_providers_rejects blueprint_id current_provider_id store
  candidate rest variants store_variant s s1 :
  prov_id candidate ≠ current_provider_id →
  call_get_blueprint_variants client blueprint_id (prov_id candidate) s
    = (Some {| cd_variants := Some variants |}, s1) →
  store_variant ∈ store →
  (∀ cv, cv ∈ variants →
     options_tuple (cv_options cv)
       ≠ options_tuple (sv_options store_variant)) →
  search_providers client blueprint_id current_provider_id store
    (candidate :: rest) s
  = search_providers client blueprint_id current_provider_id store rest s1.
Proof.
  intros Hne Hcall Hsv Hnone.
  rewrite search_providers_query, Hcall by done.
  by rewrite (evaluate_candidate_unmatched variants store store_variant)
    by (by rewrite ?new_variants_map_lookup_None).
Qed.

End matcher_frame.

(** C2. A provider switch is all or nothing.  The matcher returns nothing,
    or a provider together with a list in which every store variant, in
    order, has its entry from the catalog that provider answered with, so
    that the list is as long as the store variant list.  A candidate whose
    catalog has no match for one of the store variants contributes nothing:
    the search goes on exactly as if the remaining candidates were the
    whole list. *)
Theorem failover_is_all_or_nothing {W} (client : PrintifyApiClient W)
  (product : product) (store : list store_variant) :
  (∀ s new_provider_id new_variants s',
     attempt_provider_failover client product store s
       = ((new_provider_id, new_variants), s') →
     (new_provider_id = None ∧ new_variants = None) ∨
     ∃ id payload variants,
       new_provider_id = Some id ∧ new_variants = Some payload ∧
       last (outbound s') =
         Some (GetBlueprintVariants (prod_blueprint_id product) id
                 (Some {| cd_variants := Some variants |})) ∧
       Forall2 (remapped_from (new_variants_map variants)) store payload ∧
       length payload = length store) ∧
  (∀ candidate rest variants store_variant s s1,
     prov_id candidate ≠ prod_print_provider_id product →
     call_get_blueprint_variants client (prod_blueprint_id product)
       (prov_id candidate) s
       = (Some {| cd_variants := Some variants |}, s1) →
     store_variant ∈ store →
     (∀ cv, cv ∈ variants →
        options_tuple (cv_options cv)
          ≠ options_tuple (sv_options store_variant)) →
     search_providers client (prod_blueprint_id product)
       (prod_print_provider_id product) store (candidate :: rest) s
     = search_providers client (prod_blueprint_id product)
         (prod_print_provider_id product) store rest s1).
Proof.
  split.
  - intros s r1 r2 s' Hrun.
    destruct (attempt_provider_failover_shape client product store s)
      as [Hnone|(id & payload & Hsome)]; rewrite Hrun in *; simpl in *.
    { left. by injection Hnone as -> ->. }
    right. injection Hsome as -> ->.
    rewrite attempt_provider_failover_run in Hrun.
    destruct (call_get_blueprint_details _ _ _) as [[bd|] s1]; [|done].
    apply search_providers_success in Hrun
      as (earlier & winner & later & rejected & answer
          & _ & Hw & _ & He & _ & _ & Hlog).
    pose proof He as Hlen%evaluate_candidate_length.
    apply evaluate_candidate_Some in He as (variants & -> & Hall).
    exists id, payload, variants. repeat split; try done.
    rewrite Hlog, !app_assoc, last_snoc. unfold catalog_request.
    by rewrite Hw.
  - intros candidate rest variants sv s s1 Hne Hcall Hsv Hnone.
    by apply (search_providers_rejects client _ _ _ _ _ variants sv).
Qed.

Lemma failover_is_all_or_nothing_witness :
  ((∃ id payload variants,
      Some 30%Z = Some id ∧
      Some [ {| pv_id := 99; pv_price := 1999; pv_is_enabled := true |};
             {| pv_id := 97; pv_price := 2099; pv_is_enabled := false |} ]
        = Some payload ∧
      Forall2 (remapped_from (new_variants_map variants))
        [Demo.small; Demo.medium] payload ∧
      length payload = 2%nat)) ∧
  search_providers Demo.client 5 10 [Demo.small; Demo.medium]
    [Provider 20 "Partial"; Provider 30 "First"] Demo.start
  = search_providers Demo.client 5 10 [Demo.small; Demo.medium]
      [Provider 30 "First"]
      (RunState 1%nat
         [GetBlueprintVariants 5 20
            (Some {| cd_variants :=
                       Some [CatalogVariant 98 "M" Demo.size_M] |})]).
Proof.
  pose proof (failover_is_all_or_nothing Demo.client
                (Demo.tee 5 [Demo.small; Demo.medium])
                [Demo.small; Demo.medium]) as [Hsound Hreject].
  split.
  - destruct (Hsound Demo.start _ _ _ eq_refl)
      as [[Hnone _]|(id & payload & variants & Hid & Hpl & _ & Hall & Hlen)];
      [discriminate Hnone|].
    by exists id, payload, variants.
  - apply (Hreject (Provider 20 "Partial") [Provider 30 "First"]
             [CatalogVariant 98 "M" Demo.size_M] Demo.small Demo.start).
    + discriminate.
    + reflexivity.
    + by left.
    + intros cv Hcv. apply list_elem_of_singleton in Hcv as ->.
      vm_compute. discriminate.
Defined.

(** C4. The matcher is a first-fit search in the order of the blueprint
    data.  When it returns a provider, the blueprint's list splits around
    that provider: the entries before it that are not the current provider
    were asked for their catalog one after the other, in list order, and
    the answer of each failed to hold, for some store variant, a variant
    with the same option pairs (or held no variant data); entries equal to
    the current provider were not asked; the returned provider is not the
    current one, was asked last, and its answer holds for every store
    variant a variant with the same option pairs.  For an upstream service
    whose catalog answers depend on the request only, the first entry of
    the list that is not the current provider and whose catalog fully
    matches the store variants is the one returned, whatever comes after
    it, other fully matching candidates included. *)
Theorem failover_is_first_fit {W} (client : PrintifyApiClient W)
  (product : product) (store : list store_variant) :
  (∀ s new_provider_id payload s',
     attempt_provider_failover client product store s
       = ((Some new_provider_id, Some payload), s') →
     ∃ blueprint_data earlier winner later rejected answer,
       bd_print_providers blueprint_data = earlier ++ winner :: later ∧
       prov_id winner = new_provider_id ∧
       new_provider_id ≠ prod_print_provider_id product ∧
       fully_matches answer store ∧
       evaluate_candidate answer store = Some payload ∧
       length rejected =
         length (other_providers (prod_print_provider_id product) earlier) ∧
       Forall (λ a, ¬ fully_matches a store) rejected ∧
       outbound s' =
         outbound s ++
         GetBlueprintDetails (prod_blueprint_id product)
           (Some blueprint_data) ::
         zip_with (catalog_request (prod_blueprint_id product))
           (other_providers (prod_print_provider_id product) earlier)
           rejected ++
         [catalog_request (prod_blueprint_id product) winner answer]) ∧
  (∀ catalog s blueprint_data earlier first later,
     (∀ provider_id w,
        (get_blueprint_variants client (prod_blueprint_id product)
           provider_id w).1 = catalog provider_id) →
     (get_blueprint_details client (prod_blueprint_id product)
        (upstream s)).1 = Some blueprint_data →
     bd_print_providers blueprint_data = earlier ++ first :: later →
     Forall (λ p, prov_id p = prod_print_provider_id product ∨
                  ¬ fully_matches (catalog (prov_id p)) store)
            earlier →
     prov_id first ≠ prod_print_provider_id product →
     fully_matches (catalog (prov_id first)) store →
     ∃ payload,
       (attempt_provider_failover client product store s).1
         = (Some (prov_id first), Some payload) ∧
       evaluate_candidate (catalog (prov_id first)) store = Some payload ∧
       length payload = length store).
Proof.
  split.
  - intros s id payload s'. rewrite attempt_provider_failover_run.
    destruct (call_get_blueprint_details _ _ _) as [[bd|] s1] eqn:Hcall;
      [|done].
    apply call_get_blueprint_details_log in Hcall as [Hlog1 _].
    intros (earlier & winner & later & rejected & answer
            & Hsplit & Hw & Hne & He & Hlen & Hrej & Hlog)
      %search_providers_success.
    exists bd, earlier, winner, later, rejected, answer.
    split; [done|]. split; [done|]. split; [done|].
    split; [apply evaluate_candidate_fully_matches; by rewrite He|].
    split; [done|]. split; [done|]. split.
    + eapply Forall_impl; [exact Hrej|].
      intros a Ha. by apply evaluate_candidate_None.
    + rewrite Hlog, Hlog1, <-app_assoc. done.
  - intros catalog s bd earlier first later
      Hstable Hbd Hsplit Hearlier Hne Hfirst.
    apply evaluate_candidate_fully_matches in Hfirst as [payload Hfirst].
    exists payload. split; [|split; [done|]].
    + rewrite attempt_provider_failover_run.
      destruct (call_get_blueprint_details _ _ _) as [answer s1] eqn:Hcall.
      apply call_get_blueprint_details_log in Hcall as [_ Hans].
      rewrite Hans in Hbd. simpl in Hbd. subst answer. rewrite Hsplit.
      apply (search_providers_first_fit client _ _ _ catalog); try done.
      eapply Forall_impl; [exact Hearlier|].
      intros p [Hp|Hp]; [by left|right]. by apply evaluate_candidate_None.
    + by eapply evaluate_candidate_length.
Qed.

Lemma failover_is_first_fit_witness :
  (∃ earlier winner later rejected answer,
     [Provider 10 "Current"; Provider 20 "Partial";
      Provider 30 "First"; Provider 40 "Second"]
       = earlier ++ winner :: later ∧
     prov_id winner = 30%Z ∧
     fully_matches answer [Demo.small] ∧
     length rejected = length (other_providers 10 earlier) ∧
     Forall (λ a, ¬ fully_matches a [Demo.small]) rejected) ∧
  fully_matches (Demo.catalog 5 40) [Demo.small] ∧
  (attempt_provider_failover Demo.client (Demo.tee 5 [Demo.small])
     [Demo.small] Demo.start).1
  = (Some 30%Z,
     Some [ {| pv_id := 99; pv_price := 1999; pv_is_enabled := true |} ]).
Proof.
  pose proof (failover_is_first_fit Demo.client (Demo.tee 5 [Demo.small])
                [Demo.small]) as [Htrace Hfirst].
  split; [|split].
  - destruct (Htrace Demo.start _ _ _ eq_refl)
      as (bd & earlier & winner & later & rejected & answer
          & Hsplit & Hw & _ & Hfull & _ & Hlen & Hrej & Hlog).
    exists earlier, winner, later, rejected, answer.
    repeat split; try done.
    rewrite <-Hsplit. simpl in Hlog.
    apply (f_equal (λ l, match l with
                         | GetBlueprintDetails _ (Some b) :: _ =>
                             bd_print_providers b
                         | _ => []
                         end)) in Hlog.
    exact Hlog.
  - apply evaluate_candidate_fully_matches. by eexists.
  - destruct (Hfirst (Demo.catalog 5) Demo.start
                {| bd_print_providers :=
                     [Provider 10 "Current"; Provider 20 "Partial";
                      Provider 30 "First"; Provider 40 "Second"] |}
                [Provider 10 "Current"; Provider 20 "Partial"]
                (Provider 30 "First") [Provider 40 "Second"])
      as (payload & Hrun & Heval & _).
    + reflexivity.
    + reflexivity.
    + reflexivity.
    + constructor; [left; reflexivity|].
      constructor; [right|constructor].
      apply evaluate_candidate_None. reflexivity.
    + discriminate.
    + apply evaluate_candidate_fully_matches. by eexists.
    + rewrite Hrun. vm_compute in Heval. by injection Heval as <-.
Defined.

Lemma options_perm (a b : list (string * string)) :
  NoDup a.*1 → NoDup b.*1 → (∀ item, item ∈ a ↔ item ∈ b) → a ≡ₚ b.
Proof.
  intros Ha Hb Hab. apply NoDup_Permutation; [| |done].
  - by apply (NoDup_fmap_1 fst).
  - by apply (NoDup_fmap_1 fst).
Qed.

(** C5. Matching ignores the order of the option pairs.  A store variant
    and a variant [candidate] of the catalog whose option dictionaries hold
    the same (category, value) pairs, in whatever order each, have the same
    key; the store variant is found in the index of the catalog, the
    variant found has those same pairs, and it is [candidate] itself when
    no other variant of the catalog has them. *)
Theorem option_matching_ignores_order (store_variant : store_variant)
  (candidate : catalog_variant) (variants : list catalog_variant) :
  NoDup (sv_options store_variant).*1 →
  NoDup (cv_options candidate).*1 →
  (∀ item, item ∈ sv_options store_variant ↔ item ∈ cv_options candidate) →
  candidate ∈ variants →
  options_tuple (sv_options store_variant)
    = options_tuple (cv_options candidate) ∧
  ∃ matched,
    matched ∈ variants ∧
    (∀ item, item ∈ cv_options matched ↔ item ∈ sv_options store_variant) ∧
    map_store_variants (new_variants_map variants) [store_variant] []
      = ([remapped_entry matched store_variant], true) ∧
    ((∀ cv, cv ∈ variants →
        (∀ item, item ∈ cv_options cv ↔ item ∈ cv_options candidate) →
        cv = candidate) →
     matched = candidate).
Proof.
  intros Hsv Hcv Hsame Hin.
  assert (options_tuple (sv_options store_variant)
          = options_tuple (cv_options candidate)) as Hkey.
  { apply sorted_perm_eq. by apply options_perm. }
  split; [done|].
  destruct (new_variants_map_lookup_elem variants candidate Hin)
    as [matched Hm].
  destruct (new_variants_map_lookup_Some _ _ _ Hm) as [Hmin Hmkey].
  apply sorted_perm_eq in Hmkey.
  assert (∀ item, item ∈ cv_options matched ↔ item ∈ cv_options candidate)
    as Hitems by (intros item; by rewrite Hmkey).
  exists matched. split; [done|]. split; [|split].
  - intros item. by rewrite Hsame.
  - simpl. by rewrite Hkey, Hm.
  - intros Honly. by apply Honly.
Qed.

Lemma option_matching_ignores_order_witness :
  sv_options Demo.large = [("size", "L"); ("color", "Black")] ∧
  cv_options (CatalogVariant 96 "L" Demo.black_size_L)
    = [("color", "Black"); ("size", "L")] ∧
  map_store_variants
    (new_variants_map [CatalogVariant 99 "S" Demo.size_S;
                       CatalogVariant 97 "M" Demo.size_M;
                       CatalogVariant 96 "L" Demo.black_size_L])
    [Demo.large] []
  = ([remapped_entry (CatalogVariant 96 "L" Demo.black_size_L) Demo.large],
     true).
Proof.
  split; [reflexivity|]. split; [reflexivity|].
  destruct (option_matching_ignores_order Demo.large
              (CatalogVariant 96 "L" Demo.black_size_L)
              [CatalogVariant 99 "S" Demo.size_S;
               CatalogVariant 97 "M" Demo.size_M;
               CatalogVariant 96 "L" Demo.black_size_L])
    as (_ & matched & _ & _ & Hm & Honly).
  - apply (bool_decide_unpack _). vm_compute. exact I.
  - apply (bool_decide_unpack _). vm_compute. exact I.
  - intros item. simpl. unfold Demo.size_L_black, Demo.black_size_L.
    rewrite !elem_of_cons, !elem_of_nil. tauto.
  - do 2 right. left.
  - rewrite Hm, Honly; [reflexivity|].
    intros cv Hcv Hitems.
    apply elem_of_cons in Hcv as [->|Hcv].
    { exfalso. specialize (Hitems ("size", "S")). simpl in Hitems.
      unfold Demo.size_S, Demo.black_size_L in Hitems.
      rewrite !elem_of_cons, !elem_of_nil in Hitems.
      destruct (proj1 Hitems) as [?|[?|[]]]; [by left|done|done]. }
    apply elem_of_cons in Hcv as [->|Hcv].
    { exfalso. specialize (Hitems ("size", "M")). simpl in Hitems.
      unfold Demo.size_M, Demo.black_size_L in Hitems.
      rewrite !elem_of_cons, !elem_of_nil in Hitems.
      destruct (proj1 Hitems) as [?|[?|[]]]; [by left|done|done]. }
    by apply list_elem_of_singleton in Hcv.
Defined.

(** C8. In the list a successful matcher returns, the entry of each store
    variant is made of three things and nothing else: the id of the matched
    candidate variant, and the price and the flag of the store variant
    itself.  The matched candidate variant is a variant of the catalog the
    returned provider answered with (the last call of the matcher): the
    last one of that catalog with the option pairs of the store variant.
    The id and the title of a store variant have no influence: any variant
    list with the same prices, flags and options yields the same provider,
    the same list and the same calls.  (The options are what the matched
    variant is found by.) *)
Theorem remapped_entries_keep_price_and_flag {W}
  (client : PrintifyApiClient W) (product : product)
  (store : list store_variant) (s : run_state W)
  (new_provider_id : Z) (payload : list payload_variant)
  (s' : run_state W) :
  attempt_provider_failover client product store s
    = ((Some new_provider_id, Some payload), s') →
  (∃ variants,
     last (outbound s') =
       Some (GetBlueprintVariants (prod_blueprint_id product)
               new_provider_id (Some {| cd_variants := Some variants |})) ∧
     Forall2
       (λ store_variant entry,
          ∃ matched,
            last_with_same_options variants store_variant matched ∧
            entry = {| pv_id := cv_id matched;
                       pv_price := sv_price store_variant;
                       pv_is_enabled := sv_is_enabled store_variant |})
       store payload) ∧
  (∀ store',
     Forall2 same_sale_data store store' →
     attempt_provider_failover client product store' s
       = ((Some new_provider_id, Some payload), s')).
Proof.
  intros Hrun. split.
  - rewrite attempt_provider_failover_run in Hrun.
    destruct (call_get_blueprint_details _ _ _) as [[bd|] s1]; [|done].
    apply search_providers_success in Hrun
      as (earlier & winner & later & rejected & answer
          & _ & Hw & _ & He & _ & _ & Hlog).
    apply evaluate_candidate_Some in He as (variants & -> & Hall).
    exists variants. split.
    + rewrite Hlog, !app_assoc, last_snoc. unfold catalog_request.
      by rewrite Hw.
    + eapply Forall2_impl; [exact Hall|].
      intros sv entry. apply remapped_from_last_with_same_options.
  - intros store' Hagree.
    by rewrite <-(attempt_provider_failover_same_sale_data client product
                    store store').
Qed.

Lemma remapped_entries_keep_price_and_flag_witness :
  (∃ matched,
     last_with_same_options
       [CatalogVariant 99 "S" Demo.size_S;
        CatalogVariant 97 "M" Demo.size_M;
        CatalogVariant 96 "L" Demo.black_size_L] Demo.large matched ∧
     {| pv_id := 96; pv_price := 2199; pv_is_enabled := true |}
     = {| pv_id := cv_id matched;
          pv_price := sv_price Demo.large;
          pv_is_enabled := sv_is_enabled Demo.large |}) ∧
  attempt_provider_failover Demo.client (Demo.tee 5 [Demo.large])
    [StoreVariant 7 "Large" 2199 true Demo.size_L_black] Demo.start
  = ((Some 30%Z,
      Some [ {| pv_id := 96; pv_price := 2199; pv_is_enabled := true |} ]),
     (attempt_provider_failover Demo.client (Demo.tee 5 [Demo.large])
        [Demo.large] Demo.start).2).
Proof.
  destruct (remapped_entries_keep_price_and_flag Demo.client
              (Demo.tee 5 [Demo.large]) [Demo.large] Demo.start 30 _ _
              eq_refl) as [(variants & Hlast & Hall) Hframe].
  split.
  - vm_compute in Hlast. injection Hlast as <-.
    apply Forall2_cons_1 in Hall as [Hentry _]. exact Hentry.
  - apply Hframe. repeat constructor.
Defined.

(** C9, as the code has it.  A store variant whose option dictionary is
    empty matches a catalog variant whose option dictionary is empty, and
    no other.  So a candidate whose catalog has no variant with an empty
    option dictionary is rejected when the store variant list holds such a
    variant, and the search moves to the next candidate. *)
Theorem empty_options_match_only_empty_options {W}
  (client : PrintifyApiClient W) (product : product)
  (store : list store_variant) (store_variant : store_variant)
  (variants : list catalog_variant) :
  store_variant ∈ store →
  sv_options store_variant = [] →
  (∀ matched,
     new_variants_map variants !! options_tuple (sv_options store_variant)
       = Some matched →
     cv_options matched = []) ∧
  (∀ candidate rest s s1,
     prov_id candidate ≠ prod_print_provider_id product →
     call_get_blueprint_variants client (prod_blueprint_id product)
       (prov_id candidate) s
       = (Some {| cd_variants := Some variants |}, s1) →
     (∀ cv, cv ∈ variants → cv_options cv ≠ []) →
     search_providers client (prod_blueprint_id product)
       (prod_print_provider_id product) store (candidate :: rest) s
     = search_providers client (prod_blueprint_id product)
         (prod_print_provider_id product) store rest s1).
Proof.
  intros Hin Hempty. rewrite Hempty. split.
  - intros matched [_ Hkey]%new_variants_map_lookup_Some.
    by apply sorted_nil_inv.
  - intros candidate rest s s1 Hne Hcall Hall.
    apply (search_providers_rejects client _ _ _ _ _ variants store_variant);
      try done.
    rewrite Hempty. intros cv Hcv Hkey. apply (Hall cv Hcv).
    by apply sorted_nil_inv.
Qed.

Lemma empty_options_match_only_empty_options_witness :
  sv_options Demo.plain = [] ∧
  cv_options (CatalogVariant 69 "Default" []) = [] ∧
  search_providers Demo.client 5 10 [Demo.plain]
    [Provider 20 "Partial"; Provider 30 "First"] Demo.start
  = search_providers Demo.client 5 10 [Demo.plain] [Provider 30 "First"]
      (RunState 1%nat
         [GetBlueprintVariants 5 20
            (Some {| cd_variants :=
                       Some [CatalogVariant 98 "M" Demo.size_M] |})]).
Proof.
  split; [reflexivity|]. split.
  - apply (proj1 (empty_options_match_only_empty_options Demo.client
                    (Demo.tee 9 [Demo.plain]) [Demo.plain] Demo.plain
                    [CatalogVariant 69 "Default" []]
                    ltac:(by left) eq_refl)
             (CatalogVariant 69 "Default" [])).
    reflexivity.
  - apply (proj2 (empty_options_match_only_empty_options Demo.client
                    (Demo.tee 5 [Demo.plain]) [Demo.plain] Demo.plain
                    [CatalogVariant 98 "M" Demo.size_M]
                    ltac:(by left) eq_refl)
             (Provider 20 "Partial") [Provider 30 "First"] Demo.start).
    + discriminate.
    + reflexivity.
    + intros cv Hcv. apply list_elem_of_singleton in Hcv as ->. discriminate.
Defined.

(** C9 as stated fails: provider 50 lists one variant without options, the
    store variant without options matches it, and the candidate is
    accepted. *)
Lemma empty_options_can_match :
  sv_options Demo.plain = [] ∧
  evaluate_candidate (Demo.catalog 9 50) [Demo.plain]
    = Some [ {| pv_id := 69; pv_price := 999; pv_is_enabled := true |} ] ∧
  (attempt_provider_failover Demo.client (Demo.tee 9 [Demo.plain])
     [Demo.plain] Demo.start).1
  = (Some 50%Z,
     Some [ {| pv_id := 69; pv_price := 999; pv_is_enabled := true |} ]).
Proof. by vm_compute. Qed.

(** * Reconciler and matcher together *)

(** C3, as the code has it.  Whenever at least one variant is newly out of
    stock and the matcher returns an alternative provider whose id is not
    0, with its complete remapped list, the payload sent is the provider
    switch: the new provider id and the remapped variants, not the disable
    list. *)
Theorem successful_failover_takes_precedence {W}
  (client : PrintifyApiClient W) (product : product)
  (variants : list catalog_variant) (s s1 s2 : run_state W)
  (new_provider_id : Z) (new_variants : list payload_variant) :
  call_get_blueprint_variants client (prod_blueprint_id product)
    (prod_print_provider_id product) s
    = (Some {| cd_variants := Some variants |}, s1) →
  (∃ variant, variant ∈ prod_variants product ∧
     sv_is_enabled variant = true ∧
     sv_id variant ∉ available_catalog_variant_ids variants) →
  attempt_provider_failover client product (prod_variants product) s1
    = ((Some new_provider_id, Some new_variants), s2) →
  new_provider_id ≠ 0%Z →
  ∃ response s3,
    sync_product client product s = (tt, s3) ∧
    outbound s3 =
      outbound s2 ++
      [UpdateProduct (prod_id product)
         (provider_switch_payload new_provider_id new_variants) response] ∧
    length new_variants = length (prod_variants product).
Proof.
  intros Hlive [Hpot Hstore]%newly_out_of_stock_potential Hmatch Hid.
  pose proof (attempt_provider_failover_length _ _ _ _ _ _ _ Hmatch) as Hlen.
  destruct (sync_product_failover_branch client product s variants s1 _ s2
              Hlive Hpot Hmatch) as (response & s3 & Hrun & Hlog).
  exists response, s3. split; [done|]. split; [|done].
  rewrite Hlog, final_payload_after_failover_truthy; [done|done|].
  intros ->. destruct (prod_variants product); done.
Qed.

Lemma successful_failover_takes_precedence_witness :
  ∃ response s3,
    sync_product Demo.client (Demo.tee 5 [Demo.small; Demo.medium]) Demo.start
      = (tt, s3) ∧
    outbound s3 =
      outbound
        (attempt_provider_failover Demo.client
           (Demo.tee 5 [Demo.small; Demo.medium]) [Demo.small; Demo.medium]
           (call_get_blueprint_variants Demo.client 5 10 Demo.start).2).2 ++
      [UpdateProduct "tee"
         (provider_switch_payload 30
            [ {| pv_id := 99; pv_price := 1999; pv_is_enabled := true |};
              {| pv_id := 97; pv_price := 2099; pv_is_enabled := false |} ])
         response].
Proof.
  edestruct (successful_failover_takes_precedence Demo.client
               (Demo.tee 5 [Demo.small; Demo.medium])
               [CatalogVariant 2 "M" Demo.size_M] Demo.start)
    as (response & s3 & Hrun & Hlog & _).
  - reflexivity.
  - exists Demo.small. split; [by left|]. split; [reflexivity|].
    rewrite elem_of_available_catalog_variant_ids.
    intros (cv & Hcv & Hid). apply list_elem_of_singleton in Hcv. subst cv.
    discriminate Hid.
  - vm_compute. reflexivity.
  - discriminate.
  - by exists response, s3.
Defined.

(** C3 as stated fails for a provider whose id is 0: variant 1 is newly out
    of stock, the matcher returns provider 0 with a complete remapped list,
    and the payload sent is the disable list. *)
Lemma failover_to_provider_zero_is_dropped :
  ∃ s1 s2 s3 payload,
    call_get_blueprint_variants Demo.client 6 10 Demo.start
      = (Some {| cd_variants := Some [CatalogVariant 2 "M" Demo.size_M] |},
         s1) ∧
    (Demo.small ∈ prod_variants (Demo.tee 6 [Demo.small]) ∧
     sv_is_enabled Demo.small = true ∧
     sv_id Demo.small ∉ Demo.in_stock_at_10) ∧
    attempt_provider_failover Demo.client (Demo.tee 6 [Demo.small])
      (prod_variants (Demo.tee 6 [Demo.small])) s1
      = ((Some 0%Z, Some payload), s2) ∧
    length payload = length (prod_variants (Demo.tee 6 [Demo.small])) ∧
    sync_product Demo.client (Demo.tee 6 [Demo.small]) Demo.start
      = (tt, s3) ∧
    outbound s3 =
      outbound s2 ++
      [UpdateProduct "tee"
         (disable_restore_payload
            [ {| pv_id := 1; pv_price := 1999; pv_is_enabled := false |} ])
         true] ∧
    disable_restore_payload
      [ {| pv_id := 1; pv_price := 1999; pv_is_enabled := false |} ]
      ≠ provider_switch_payload 0 payload.
Proof.
  eexists _, _, _, _.
  split; [vm_compute; reflexivity|]. split.
  { split; [by left|]. split; [reflexivity|].
    apply (bool_decide_unpack _). by vm_compute. }
  split; [vm_compute; reflexivity|]. split; [reflexivity|].
  split; [vm_compute; reflexivity|]. split; [reflexivity|]. discriminate.
Qed.

(** C10. What the reconciler does with the answer of the matcher depends
    on the truth value of both components, for any answer whatever.  If the
    provider id is missing or 0, or the list is missing or empty, the
    payload is the disable/restore list, even for a provider id and a list
    that a successful matcher returned.  If the provider id is not 0 and
    the list is not empty, the payload is the provider switch made of the
    two; a payload with a provider in it arises in no other way.  With a
    variant newly out of stock, the payload so chosen from the answer of
    the matcher is the one sent. *)
Theorem provider_switch_needs_truthy_result {W}
  (client : PrintifyApiClient W) (product : product) :
  (∀ (result : option Z * option (list payload_variant))
     (variants_for_update : list payload_variant),
     result.1 = None ∨ result.1 = Some 0%Z ∨
     result.2 = None ∨ result.2 = Some [] →
     final_payload_after_failover result variants_for_update
       = disable_restore_payload variants_for_update) ∧
  (∀ (new_provider_id : Z) (new_variants variants_for_update
        : list payload_variant),
     new_provider_id ≠ 0%Z → new_variants ≠ [] →
     final_payload_after_failover (Some new_provider_id, Some new_variants)
       variants_for_update
       = provider_switch_payload new_provider_id new_variants) ∧
  (∀ (result : option Z * option (list payload_variant))
     (variants_for_update : list payload_variant),
     up_print_provider_id
       (final_payload_after_failover result variants_for_update) ≠ None →
     ∃ new_provider_id new_variants,
       result = (Some new_provider_id, Some new_variants) ∧
       new_provider_id ≠ 0%Z ∧ new_variants ≠ []) ∧
  (∀ variants s s1 s2 result,
     call_get_blueprint_variants client (prod_blueprint_id product)
       (prod_print_provider_id product) s
       = (Some {| cd_variants := Some variants |}, s1) →
     (∃ variant, variant ∈ prod_variants product ∧
        sv_is_enabled variant = true ∧
        sv_id variant ∉ available_catalog_variant_ids variants) →
     attempt_provider_failover client product (prod_variants product) s1
       = (result, s2) →
     ∃ response s3,
       sync_product client product s = (tt, s3) ∧
       outbound s3 =
         outbound s2 ++
         [UpdateProduct (prod_id product)
            (final_payload_after_failover result
               (variants_for_update
                  (scan_variants (available_catalog_variant_ids variants)
                     (prod_variants product))))
            response]).
Proof.
  split; [|split; [|split]].
  - intros result vfu. apply final_payload_after_failover_falsy.
  - intros id l vfu. apply final_payload_after_failover_truthy.
  - intros result vfu Hswitch.
    destruct (final_payload_after_failover_switch result vfu Hswitch)
      as (id & l & -> & Hid & Hl & _).
    by exists id, l.
  - intros variants s s1 s2 result Hlive Hout Hmatch.
    apply newly_out_of_stock_potential in Hout as [Hpot _].
    by apply (sync_product_failover_branch client product s variants s1).
Qed.

Lemma provider_switch_needs_truthy_result_witness :
  (final_payload_after_failover
     (Some 0%Z,
      Some [ {| pv_id := 79; pv_price := 1999; pv_is_enabled := true |} ])
     [ {| pv_id := 1; pv_price := 1999; pv_is_enabled := false |} ]
   = disable_restore_payload
       [ {| pv_id := 1; pv_price := 1999; pv_is_enabled := false |} ]) ∧
  (final_payload_after_failover (Some 30%Z, Some [])
     [ {| pv_id := 1; pv_price := 1999; pv_is_enabled := false |} ]
   = disable_restore_payload
       [ {| pv_id := 1; pv_price := 1999; pv_is_enabled := false |} ]) ∧
  (final_payload_after_failover
     (Some 30%Z,
      Some [ {| pv_id := 99; pv_price := 1999; pv_is_enabled := true |} ])
     [ {| pv_id := 1; pv_price := 1999; pv_is_enabled := false |} ]
   = provider_switch_payload 30
       [ {| pv_id := 99; pv_price := 1999; pv_is_enabled := true |} ]) ∧
  (∃ response s3,
     sync_product Demo.client (Demo.tee 6 [Demo.small]) Demo.start
       = (tt, s3) ∧
     last (outbound s3) =
       Some (UpdateProduct "tee"
               (disable_restore_payload
                  [ {| pv_id := 1; pv_price := 1999;
                       pv_is_enabled := false |} ])
               response)).
Proof.
  destruct (provider_switch_needs_truthy_result Demo.client
              (Demo.tee 6 [Demo.small]))
    as (Hfalsy & Htruthy & _ & Hsent).
  split; [|split; [|split]].
  - apply Hfalsy. right. left. reflexivity.
  - apply Hfalsy. do 3 right. reflexivity.
  - apply Htruthy; discriminate.
  - edestruct (Hsent [CatalogVariant 2 "M" Demo.size_M] Demo.start)
      as (response & s3 & Hrun & Hlog).
    + reflexivity.
    + exists Demo.small. split; [by left|]. split; [reflexivity|].
      rewrite elem_of_available_catalog_variant_ids.
      intros (cv & Hcv & Hid). apply list_elem_of_singleton in Hcv. subst cv.
      discriminate Hid.
    + vm_compute. reflexivity.
    + exists response, s3. split; [exact Hrun|].
      rewrite Hlog, last_snoc. do 2 f_equal.
Defined.

(** * Further properties of the reconciler *)

(** X4. The list built by the loop over the variants has one entry per
    variant, in order, with the variant's id and price, and its flag is
    exactly whether the id is among the available ids. *)
Theorem reconciled_flags_follow_availability (available : gset Z)
  (store : list store_variant) :
  variants_for_update (scan_variants available store) =
  (λ variant,
     {| pv_id := sv_id variant;
        pv_price := sv_price variant;
        pv_is_enabled := bool_decide (sv_id variant ∈ available) |})
    <$> store.
Proof.
  rewrite scan_variants_entries. apply list_fmap_ext. intros _ variant _.
  unfold reconciled_entry, new_enabled_status, newly_out_of_stock, restocked.
  f_equal. destruct (sv_is_enabled variant); by case_bool_decide.
Qed.

(** X5. An update is needed exactly when the flag of some variant differs
    from the availability of its id; a failover is wanted exactly when some
    enabled variant has its id missing, and then an update is needed too. *)
Theorem update_needed_iff_some_flag_differs (available : gset Z)
  (store : list store_variant) :
  (requires_update (scan_variants available store) = true ↔
   ∃ variant, variant ∈ store ∧
     sv_is_enabled variant ≠ bool_decide (sv_id variant ∈ available)) ∧
  (potential_failover_needed (scan_variants available store) = true ↔
   ∃ variant, variant ∈ store ∧
     sv_is_enabled variant = true ∧ sv_id variant ∉ available) ∧
  (potential_failover_needed (scan_variants available store) = true →
   requires_update (scan_variants available store) = true).
Proof.
  split; [|split].
  - rewrite scan_variants_requires_update.
    split; intros (v & Hv & Hc); exists v; (split; [done|]).
    + destruct Hc as [[He Hn]%newly_out_of_stock_true
                     |[He Hn]%restocked_true]; rewrite He.
      * by rewrite bool_decide_eq_false_2.
      * by rewrite bool_decide_eq_true_2.
    + unfold newly_out_of_stock, restocked.
      destruct (sv_is_enabled v), (bool_decide (sv_id v ∈ available));
        simpl; auto; done.
  - rewrite scan_variants_potential_failover.
    split; intros (v & Hv & Hc); exists v; (split; [done|]);
      by apply newly_out_of_stock_true.
  - apply scan_variants_potential_requires.
Qed.

Lemma update_needed_iff_some_flag_differs_witness :
  requires_update
    (scan_variants Demo.in_stock_at_10 [Demo.medium_on; Demo.small]) = true ∧
  potential_failover_needed
    (scan_variants Demo.in_stock_at_10 [Demo.medium_on; Demo.small]) = true.
Proof.
  destruct (update_needed_iff_some_flag_differs Demo.in_stock_at_10
              [Demo.medium_on; Demo.small]) as (_ & Hpot & Himp).
  assert (potential_failover_needed
            (scan_variants Demo.in_stock_at_10 [Demo.medium_on; Demo.small])
          = true) as H.
  { apply Hpot. exists Demo.small. split; [by right; left|].
    split; [reflexivity|]. apply (bool_decide_unpack _). by vm_compute. }
  split; [by apply Himp|exact H].
Defined.

Section reconciler_runs.
Context {W : Type} (client : PrintifyApiClient W).

Lemma call_get_all_products_log s answer s1 :
  call_get_all_products client s = (answer, s1) →
  outbound s1 = outbound s ++ [GetAllProducts answer] ∧
  get_all_products client (upstream s) = (answer, upstream s1).
Proof.
  unfold call_get_all_products.
  destruct (get_all_products _ _) as [a w]. by intros [= <- <-].
Qed.

Lemma sync_product_without_stock_data product s answer s1 :
  call_get_blueprint_variants client (prod_blueprint_id product)
    (prod_print_provider_id product) s = (answer, s1) →
  answer = None ∨ answer = Some {| cd_variants := None |} →
  sync_product client product s = (tt, s1).
Proof.
  intros Hcall Hnone. rewrite sync_product_run, Hcall.
  by destruct Hnone as [->| ->].
Qed.

Lemma sync_product_flags_follow product s variants s1 :
  call_get_blueprint_variants client (prod_blueprint_id product)
    (prod_print_provider_id product) s
    = (Some {| cd_variants := Some variants |}, s1) →
  (∀ variant, variant ∈ prod_variants product →
     sv_is_enabled variant
       = bool_decide (sv_id variant ∈ available_catalog_variant_ids variants)) →
  sync_product client product s = (tt, s1).
Proof.
  intros Hcall Hsame. rewrite sync_product_run, Hcall. simpl.
  destruct (requires_update _) eqn:Hreq; [|done].
  apply scan_variants_requires_update in Hreq as (v & Hv & Hc).
  specialize (Hsame v Hv).
  destruct Hc as [[He Hn]%newly_out_of_stock_true|[He Hn]%restocked_true];
    rewrite He in Hsame; symmetry in Hsame.
  - by apply bool_decide_eq_true in Hsame.
  - by apply bool_decide_eq_false in Hsame.
Qed.

End reconciler_runs.

(** X3. A product for which the stock request yields nothing, or an answer
    without the key ['variants'], is skipped: the request is the only call
    made for it. *)
Theorem product_without_stock_data_is_skipped {W}
  (client : PrintifyApiClient W) (product : product)
  (s s1 : run_state W) (answer : option catalog_data) :
  call_get_blueprint_variants client (prod_blueprint_id product)
    (prod_print_provider_id product) s = (answer, s1) →
  answer = None ∨ answer = Some {| cd_variants := None |} →
  sync_product client product s = (tt, s1) ∧
  outbound s1 =
    outbound s ++
    [GetBlueprintVariants (prod_blueprint_id product)
       (prod_print_provider_id product) answer].
Proof.
  intros Hcall Hnone. split.
  - by apply (sync_product_without_stock_data client product s answer).
  - by apply call_get_blueprint_variants_log in Hcall as [? _].
Qed.

Lemma product_without_stock_data_is_skipped_witness :
  sync_product Demo.client (Product "mug" "Mug" 5 70 [Demo.small]) Demo.start
  = (tt, RunState 1%nat [GetBlueprintVariants 5 70 None]).
Proof.
  apply (proj1 (product_without_stock_data_is_skipped Demo.client
                  (Product "mug" "Mug" 5 70 [Demo.small])
                  Demo.start _ None eq_refl (or_introl eq_refl))).
Defined.

(** X6. When a variant is newly out of stock and the matcher finds no
    provider, the payload sent is the variants-only list: every variant
    with its id, its price and its availability as flag, the variant that
    went out of stock being disabled in it. *)
Theorem failed_failover_sends_disable_list {W}
  (client : PrintifyApiClient W) (product : product)
  (variants : list catalog_variant) (s s1 s2 : run_state W)
  (variant : store_variant) :
  call_get_blueprint_variants client (prod_blueprint_id product)
    (prod_print_provider_id product) s
    = (Some {| cd_variants := Some variants |}, s1) →
  variant ∈ prod_variants product →
  sv_is_enabled variant = true →
  sv_id variant ∉ available_catalog_variant_ids variants →
  attempt_provider_failover client product (prod_variants product) s1
    = ((None, None), s2) →
  ∃ sent response s3,
    sync_product client product s = (tt, s3) ∧
    outbound s3 =
      outbound s2 ++
      [UpdateProduct (prod_id product) (disable_restore_payload sent)
         response] ∧
    sent =
      (λ v, {| pv_id := sv_id v; pv_price := sv_price v;
               pv_is_enabled :=
                 bool_decide
                   (sv_id v ∈ available_catalog_variant_ids variants) |})
        <$> prod_variants product ∧
    {| pv_id := sv_id variant; pv_price := sv_price variant;
       pv_is_enabled := false |} ∈ sent.
Proof.
  intros Hlive Hin Hen Hout Hmatch.
  destruct (newly_out_of_stock_potential
              (available_catalog_variant_ids variants)
              (prod_variants product)) as [Hpot _]; [by exists variant|].
  destruct (sync_product_failover_branch client product s variants s1 _ s2
              Hlive Hpot Hmatch) as (response & s3 & Hrun & Hlog).
  rewrite final_payload_after_failover_falsy in Hlog by (by left).
  eexists _, response, s3. split; [done|]. split; [exact Hlog|].
  assert (variants_for_update
            (scan_variants (available_catalog_variant_ids variants)
               (prod_variants product))
          = (λ v, {| pv_id := sv_id v; pv_price := sv_price v;
                     pv_is_enabled :=
                       bool_decide
                         (sv_id v
                            ∈ available_catalog_variant_ids variants) |})
              <$> prod_variants product) as ->.
  { rewrite scan_variants_entries. apply list_fmap_ext. intros _ v _.
    unfold reconciled_entry, new_enabled_status, newly_out_of_stock,
      restocked.
    f_equal. destruct (sv_is_enabled v); by case_bool_decide. }
  split; [done|]. apply list_elem_of_fmap. exists variant. split; [|done].
  by rewrite bool_decide_eq_false_2.
Qed.

Lemma failed_failover_sends_disable_list_witness :
  ∃ response s3,
    sync_product Demo.client (Demo.tee 7 [Demo.small; Demo.medium]) Demo.start
      = (tt, s3) ∧
    last (outbound s3) =
      Some (UpdateProduct "tee"
              (disable_restore_payload
                 [ {| pv_id := 1; pv_price := 1999; pv_is_enabled := false |};
                   {| pv_id := 2; pv_price := 2099; pv_is_enabled := true |} ])
              response).
Proof.
  edestruct (failed_failover_sends_disable_list Demo.client
               (Demo.tee 7 [Demo.small; Demo.medium])
               [CatalogVariant 2 "M" Demo.size_M] Demo.start)
    as (sent & response & s3 & Hrun & Hlog & Hsent & _).
  - reflexivity.
  - by left.
  - reflexivity.
  - rewrite elem_of_available_catalog_variant_ids.
    intros (cv & Hcv & Hid). apply list_elem_of_singleton in Hcv. subst cv.
    discriminate Hid.
  - vm_compute. reflexivity.
  - exists response, s3. split; [exact Hrun|].
    rewrite Hlog, last_snoc, Hsent. do 3 f_equal.
Defined.

(** * Further properties of the matcher *)

Section matcher_log.
Context {W : Type} (client : PrintifyApiClient W).

Lemma search_providers_log blueprint_id current_provider_id store
  providers s :
  ∃ queries,
    outbound
      (search_providers client blueprint_id current_provider_id store
         providers s).2 = outbound s ++ queries ∧
    Forall (λ c, ∃ p answer,
              c = catalog_request blueprint_id p answer ∧
              p ∈ providers ∧ prov_id p ≠ current_provider_id) queries ∧
    length queries ≤ length providers.
Proof.
  revert s. induction providers as [|p rest IH]; intros s.
  - exists []. simpl. rewrite app_nil_r. by repeat split.
  - destruct (decide (prov_id p = current_provider_id)) as [Hp|Hp].
    + rewrite search_providers_skip by done.
      destruct (IH s) as (queries & Hlog & Hall & Hlen).
      exists queries. split; [done|]. split; [|simpl; lia].
      eapply Forall_impl; [exact Hall|].
      intros c (q & a & -> & Hq & Hne). exists q, a.
      split; [done|]. split; [by right|done].
    + rewrite search_providers_query by done.
      destruct (call_get_blueprint_variants _ _ _ _) as [answer s1] eqn:Hcall.
      apply call_get_blueprint_variants_log in Hcall as [Hlog1 _].
      assert (∃ p0 a0, catalog_request blueprint_id p answer
                       = catalog_request blueprint_id p0 a0 ∧
                p0 ∈ p :: rest ∧ prov_id p0 ≠ current_provider_id) as Hhead.
      { exists p, answer. split; [done|]. split; [by left|done]. }
      destruct (evaluate_candidate answer store) as [payload|].
      * exists [catalog_request blueprint_id p answer]. simpl.
        split; [done|]. split; [by constructor|lia].
      * destruct (IH s1) as (queries & Hlog & Hall & Hlen).
        exists (catalog_request blueprint_id p answer :: queries).
        split; [by rewrite Hlog, Hlog1, <-app_assoc|].
        split; [|simpl; lia]. constructor; [done|].
        eapply Forall_impl; [exact Hall|].
        intros c (q & a & -> & Hq & Hne). exists q, a.
        split; [done|]. split; [by right|done].
Qed.

Lemma attempt_provider_failover_reads product store s :
  ∃ reads,
    outbound (attempt_provider_failover client product store s).2 =
      outbound s ++ reads ∧
    Forall is_catalog_read reads.
Proof.
  rewrite attempt_provider_failover_run.
  destruct (call_get_blueprint_details _ _ _) as [[bd|] s1] eqn:Hcall;
    apply call_get_blueprint_details_log in Hcall as [Hlog1 _].
  - destruct (search_providers_log (prod_blueprint_id product)
                (prod_print_provider_id product) store
                (bd_print_providers bd) s1) as (queries & Hlog & Hall & _).
    exists (GetBlueprintDetails (prod_blueprint_id product) (Some bd)
              :: queries).
    split; [by rewrite Hlog, Hlog1, <-app_assoc|].
    constructor; [done|]. eapply Forall_impl; [exact Hall|].
    by intros c (p & a & -> & _).
  - exists [GetBlueprintDetails (prod_blueprint_id product) None].
    split; [done|]. by repeat constructor.
Qed.

End matcher_log.

(** X7. Whatever it returns, the matcher makes one blueprint request and
    then only catalog requests, each for the product's blueprint and for a
    provider of the blueprint's list other than the current one.  It never
    lists products and never sends an update. *)
Theorem matcher_only_reads_the_catalog {W} (client : PrintifyApiClient W)
  (product : product) (store : list store_variant) (s : run_state W) :
  ∃ answer queries,
    outbound (attempt_provider_failover client product store s).2 =
      outbound s ++
      GetBlueprintDetails (prod_blueprint_id product) answer :: queries ∧
    Forall (λ c, ∃ p a,
              c = GetBlueprintVariants (prod_blueprint_id product)
                    (prov_id p) a ∧
              prov_id p ≠ prod_print_provider_id product ∧
              ∃ blueprint_data,
                answer = Some blueprint_data ∧
                p ∈ bd_print_providers blueprint_data) queries.
Proof.
  rewrite attempt_provider_failover_run.
  destruct (call_get_blueprint_details _ _ _) as [[bd|] s1] eqn:Hcall;
    apply call_get_blueprint_details_log in Hcall as [Hlog1 _].
  - destruct (search_providers_log client (prod_blueprint_id product)
                (prod_print_provider_id product) store
                (bd_print_providers bd) s1) as (queries & Hlog & Hall & _).
    exists (Some bd), queries.
    split; [by rewrite Hlog, Hlog1, <-app_assoc|].
    eapply Forall_impl; [exact Hall|].
    intros c (p & a & -> & Hp & Hne). exists p, a.
    split; [done|]. split; [done|]. by exists bd.
  - exists None, []. simpl. by split.
Qed.


(** X8. Checking one product makes the stock request, then possibly the
    requests of the matcher, which only read the catalog, and at the very
    end at most one update, which is for that product. *)
Theorem at_most_one_update_per_product {W} (client : PrintifyApiClient W)
  (product : product) (s : run_state W) :
  ∃ answer reads updates,
    outbound (sync_product client product s).2 =
      outbound s ++
      GetBlueprintVariants (prod_blueprint_id product)
        (prod_print_provider_id product) answer :: reads ++ updates ∧
    Forall is_catalog_read reads ∧
    (updates = [] ∨
     ∃ payload response,
       updates = [UpdateProduct (prod_id product) payload response]).
Proof.
  rewrite sync_product_run.
  destruct (call_get_blueprint_variants _ _ _ _) as [answer s1] eqn:Hcall.
  apply call_get_blueprint_variants_log in Hcall as [Hlog1 _].
  exists answer.
  assert (∃ reads updates,
            outbound s1 =
              outbound s ++
              GetBlueprintVariants (prod_blueprint_id product)
                (prod_print_provider_id product) answer :: reads ++ updates ∧
            Forall is_catalog_read reads ∧
            (updates = [] ∨
             ∃ payload response,
               updates = [UpdateProduct (prod_id product) payload response]))
    as Hskip.
  { exists [], []. split; [done|]. split; [constructor|by left]. }
  destruct answer as [[[variants|]]|]; try done.
  simpl. destruct (requires_update _); [|done].
  destruct (potential_failover_needed _).
  - destruct (attempt_provider_failover client product
                (prod_variants product) s1) as [result s2] eqn:Hmatch.
    destruct (attempt_provider_failover_reads client product
                (prod_variants product) s1) as (reads & Hlog2 & Hall).
    rewrite Hmatch in Hlog2. simpl in Hlog2.
    match goal with
    | |- context [call_update_product client ?pid ?pl s2] =>
        destruct (call_update_product_log client pid pl s2)
          as (response & s3 & -> & Hlog3);
        exists reads, [UpdateProduct pid pl response]
    end.
    simpl. split; [|split].
    + rewrite Hlog3, Hlog2, Hlog1, <-!app_assoc. done.
    + done.
    + right. by eexists _, _.
  - match goal with
    | |- context [call_update_product client ?pid ?pl s1] =>
        destruct (call_update_product_log client pid pl s1)
          as (response & s3 & -> & Hlog3);
        exists [], [UpdateProduct pid pl response]
    end.
    simpl. split; [|split].
    + rewrite Hlog3, Hlog1, <-!app_assoc. done.
    + constructor.
    + right. by eexists _, _.
Qed.

(** * The whole run *)

Section whole_run.
Context {W : Type} (client : PrintifyApiClient W).

Lemma for_each_steady (catalog : Z → Z → option catalog_data) products s :
  (∀ blueprint_id provider_id w,
     (get_blueprint_variants client blueprint_id provider_id w).1
       = catalog blueprint_id provider_id) →
  Forall (flags_follow_stock catalog) products →
  outbound (for_each products (sync_product client) s).2 =
  outbound s ++ (stock_request catalog <$> products).
Proof.
  intros Hstable Hall. revert s.
  induction Hall as [|p products Hp _ IH]; intros s.
  - simpl. by rewrite app_nil_r.
  - rewrite for_each_cons, IH.
    destruct (call_get_blueprint_variants client (prod_blueprint_id p)
                (prod_print_provider_id p) s) as [answer s1] eqn:Hcall.
    pose proof Hcall as [Hlog Hans]%call_get_blueprint_variants_log.
    specialize (Hstable (prod_blueprint_id p) (prod_print_provider_id p)
                  (upstream s)).
    rewrite Hans in Hstable. simpl in Hstable.
    assert (sync_product client p s = (tt, s1)) as ->.
    { unfold flags_follow_stock in Hp. rewrite <-Hstable in Hp.
      destruct answer as [[[variants|]]|].
      - by apply (sync_product_flags_follow client p s variants).
      - apply (sync_product_without_stock_data client p s _ s1 Hcall).
        by right.
      - apply (sync_product_without_stock_data client p s _ s1 Hcall).
        by left. }
    simpl. rewrite Hlog, <-app_assoc. unfold stock_request at 2.
    by rewrite <-Hstable.
Qed.

End whole_run.

(** X1. When the product listing is missing, has no key ['data'], or lists
    no product, the run ends after that one call. *)
Theorem nothing_listed_nothing_done {W} (client : PrintifyApiClient W)
  (s s1 : run_state W) (answer : option products_data) :
  call_get_all_products client s = (answer, s1) →
  answer = None ∨ answer = Some {| pd_data := None |} ∨
  answer = Some {| pd_data := Some [] |} →
  sync_product_inventory client s = (tt, s1) ∧
  outbound s1 = outbound s ++ [GetAllProducts answer].
Proof.
  intros Hcall Hnone. split.
  - rewrite sync_product_inventory_run, Hcall.
    by destruct Hnone as [->|[->| ->]].
  - by apply call_get_all_products_log in Hcall as [? _].
Qed.

Lemma nothing_listed_nothing_done_witness :
  sync_product_inventory Demo.client Demo.start
  = (tt, RunState 1%nat [GetAllProducts None]).
Proof.
  apply (proj1 (nothing_listed_nothing_done Demo.client Demo.start _ None
                  eq_refl (or_introl eq_refl))).
Defined.

(** X2. For an upstream service whose catalog answers depend on the request
    only: if every listed product either has no stock data or has each
    variant's flag equal to the availability of its id, the run makes the
    listing call and then exactly one stock request per product, in the
    order of the listing, and nothing else; no update is sent. *)
Theorem steady_state_run_only_reads {W} (client : PrintifyApiClient W)
  (catalog : Z → Z → option catalog_data) (products : list product)
  (s s1 : run_state W) :
  (∀ blueprint_id provider_id w,
     (get_blueprint_variants client blueprint_id provider_id w).1
       = catalog blueprint_id provider_id) →
  call_get_all_products client s
    = (Some {| pd_data := Some products |}, s1) →
  Forall (flags_follow_stock catalog) products →
  outbound (sync_product_inventory client s).2 =
  outbound s ++
  GetAllProducts (Some {| pd_data := Some products |}) ::
  (stock_request catalog <$> products).
Proof.
  intros Hstable Hcall Hall.
  rewrite sync_product_inventory_run, Hcall.
  apply call_get_all_products_log in Hcall as [Hlog _].
  rewrite (for_each_steady client catalog) by done.
  by rewrite Hlog, <-app_assoc.
Qed.

Lemma steady_state_run_only_reads_witness :
  outbound (sync_product_inventory Demo.shop_client Demo.start).2 =
  [GetAllProducts (Some {| pd_data := Some Demo.shop |});
   GetBlueprintVariants 5 10
     (Some {| cd_variants := Some [CatalogVariant 2 "M" Demo.size_M] |});
   GetBlueprintVariants 5 70 None].
Proof.
  apply (steady_state_run_only_reads Demo.shop_client Demo.catalog Demo.shop
           Demo.start (RunState 1%nat
                         [GetAllProducts
                            (Some {| pd_data := Some Demo.shop |})])).
  - reflexivity.
  - reflexivity.
  - constructor; [|constructor; [exact I|constructor]].
    intros variant Hv.
    apply elem_of_cons in Hv as [->|Hv]; [by vm_compute|].
    apply list_elem_of_singleton in Hv as ->. by vm_compute.
Defined.

(** * Edge cases of the matcher *)

(** X9. Without blueprint data the matcher returns nothing, and the
    blueprint request is the only call it makes. *)
Theorem missing_blueprint_fails_cleanly {W} (client : PrintifyApiClient W)
  (product : product) (store : list store_variant) (s s1 : run_state W) :
  call_get_blueprint_details client (prod_blueprint_id product) s
    = (None, s1) →
  attempt_provider_failover client product store s = ((None, None), s1) ∧
  outbound s1 =
    outbound s ++ [GetBlueprintDetails (prod_blueprint_id product) None].
Proof.
  intros Hcall. split.
  - by rewrite attempt_provider_failover_run, Hcall.
  - by apply call_get_blueprint_details_log in Hcall as [? _].
Qed.

Lemma missing_blueprint_fails_cleanly_witness :
  attempt_provider_failover Demo.client (Demo.tee 8 [Demo.small])
    [Demo.small] Demo.start
  = ((None, None), RunState 1%nat [GetBlueprintDetails 8 None]).
Proof.
  apply (proj1 (missing_blueprint_fails_cleanly Demo.client
                  (Demo.tee 8 [Demo.small]) [Demo.small] Demo.start _
                  eq_refl)).
Defined.

(** X10. When the matcher returns nothing although the blueprint data came,
    it has asked every provider of the list other than the current one,
    once each and in list order, and every answer either held no variant
    data or lacked, for some store variant, a variant with the same option
    pairs.  With no such provider in the list it asks nobody. *)
Theorem failed_search_asked_every_alternative {W}
  (client : PrintifyApiClient W) (product : product)
  (store : list store_variant) (s s1 s' : run_state W)
  (blueprint_data : blueprint_data) :
  call_get_blueprint_details client (prod_blueprint_id product) s
    = (Some blueprint_data, s1) →
  attempt_provider_failover client product store s = ((None, None), s') →
  ∃ rejected,
    length rejected =
      length (other_providers (prod_print_provider_id product)
                (bd_print_providers blueprint_data)) ∧
    Forall (λ a, ¬ fully_matches a store) rejected ∧
    outbound s' =
      outbound s ++
      GetBlueprintDetails (prod_blueprint_id product) (Some blueprint_data) ::
      zip_with (catalog_request (prod_blueprint_id product))
        (other_providers (prod_print_provider_id product)
           (bd_print_providers blueprint_data))
        rejected.
Proof.
  intros Hcall. rewrite attempt_provider_failover_run, Hcall.
  apply call_get_blueprint_details_log in Hcall as [Hlog1 _].
  intros (rejected & Hlen & Hrej & Hlog)%search_providers_failure.
  exists rejected. split; [done|]. split.
  - eapply Forall_impl; [exact Hrej|].
    intros a Ha. by apply evaluate_candidate_None.
  - by rewrite Hlog, Hlog1, <-app_assoc.
Qed.

Lemma failed_search_asked_every_alternative_witness :
  ∃ rejected,
    length rejected = 1%nat ∧
    Forall (λ a, ¬ fully_matches a [Demo.small]) rejected ∧
    outbound
      (attempt_provider_failover Demo.client (Demo.tee 7 [Demo.small])
         [Demo.small] Demo.start).2
    = GetBlueprintDetails 7 (Demo.details 7) ::
      zip_with (catalog_request 7) [Provider 20 "Partial"] rejected.
Proof.
  edestruct (failed_search_asked_every_alternative Demo.client
               (Demo.tee 7 [Demo.small]) [Demo.small] Demo.start)
    as (rejected & Hlen & Hrej & Hlog).
  - reflexivity.
  - vm_compute. reflexivity.
  - exists rejected. split; [exact Hlen|]. split; [exact Hrej|exact Hlog].
Defined.

(** X11. A candidate for which the catalog request yields nothing, or an
    answer without the key ['variants'], is skipped: the search goes on
    with the remaining providers. *)
Theorem candidate_without_catalog_is_skipped {W}
  (client : PrintifyApiClient W) (blueprint_id current_provider_id : Z)
  (store : list store_variant) (candidate : provider)
  (rest : list provider) (s s1 : run_state W)
  (answer : option catalog_data) :
  prov_id candidate ≠ current_provider_id →
  call_get_blueprint_variants client blueprint_id (prov_id candidate) s
    = (answer, s1) →
  answer = None ∨ answer = Some {| cd_variants := None |} →
  search_providers client blueprint_id current_provider_id store
    (candidate :: rest) s
  = search_providers client blueprint_id current_provider_id store rest s1.
Proof.
  intros Hne Hcall Hnone.
  rewrite search_providers_query, Hcall by done.
  by destruct Hnone as [->| ->].
Qed.

Lemma candidate_without_catalog_is_skipped_witness :
  search_providers Demo.client 5 10 [Demo.small]
    [Provider 70 "Silent"; Provider 30 "First"] Demo.start
  = search_providers Demo.client 5 10 [Demo.small] [Provider 30 "First"]
      (RunState 1%nat [GetBlueprintVariants 5 70 None]).
Proof.
  apply (candidate_without_catalog_is_skipped Demo.client 5 10 [Demo.small]
           (Provider 70 "Silent") [Provider 30 "First"] Demo.start _ None).
  - discriminate.
  - reflexivity.
  - by left.
Defined.

(** X12. With an empty list of store variants, the first provider other
    than the current one whose answer has the key ['variants'] is returned,
    with an empty list, whatever its catalog holds. *)
Theorem empty_store_list_accepts_first_catalog {W}
  (client : PrintifyApiClient W) (blueprint_id current_provider_id : Z)
  (candidate : provider) (rest : list provider) (s s1 : run_state W)
  (variants : list catalog_variant) :
  prov_id candidate ≠ current_provider_id →
  call_get_blueprint_variants client blueprint_id (prov_id candidate) s
    = (Some {| cd_variants := Some variants |}, s1) →
  search_providers client blueprint_id current_provider_id []
    (candidate :: rest) s
  = ((Some (prov_id candidate), Some []), s1).
Proof.
  intros Hne Hcall. by rewrite search_providers_query, Hcall by done.
Qed.

Lemma empty_store_list_accepts_first_catalog_witness :
  search_providers Demo.client 5 10 []
    [Provider 20 "Partial"; Provider 30 "First"] Demo.start
  = ((Some 20%Z, Some []),
     RunState 1%nat [GetBlueprintVariants 5 20 (Demo.catalog 5 20)]).
Proof.
  apply (empty_store_list_accepts_first_catalog Demo.client 5 10
           (Provider 20 "Partial") [Provider 30 "First"] Demo.start _
           [CatalogVariant 98 "M" Demo.size_M]).
  - discriminate.
  - reflexivity.
Defined.

(** X13. A candidate whose catalog lists no variant at all is rejected as
    soon as there is a store variant to map. *)
Theorem empty_catalog_is_rejected {W}
  (client : PrintifyApiClient W) (blueprint_id current_provider_id : Z)
  (store : list store_variant) (candidate : provider)
  (rest : list provider) (s s1 : run_state W) :
  prov_id candidate ≠ current_provider_id →
  call_get_blueprint_variants client blueprint_id (prov_id candidate) s
    = (Some {| cd_variants := Some [] |}, s1) →
  store ≠ [] →
  search_providers client blueprint_id current_provider_id store
    (candidate :: rest) s
  = search_providers client blueprint_id current_provider_id store rest s1.
Proof.
  intros Hne Hcall Hstore.
  destruct store as [|sv store]; [done|].
  apply (search_providers_rejects client _ _ _ _ _ [] sv); try done.
  - by left.
  - intros cv Hcv. by apply elem_of_nil in Hcv.
Qed.

Lemma empty_catalog_is_rejected_witness :
  search_providers
    (Demo.table_client Demo.details
       (λ _ _, Some {| cd_variants := Some [] |}) None)
    5 10 [Demo.small] [Provider 20 "Partial"] Demo.start
  = ((None, None),
     RunState 1%nat
       [GetBlueprintVariants 5 20 (Some {| cd_variants := Some [] |})]).
Proof.
  apply (empty_catalog_is_rejected
           (Demo.table_client Demo.details
              (λ _ _, Some {| cd_variants := Some [] |}) None)
           5 10 [Demo.small] (Provider 20 "Partial") [] Demo.start).
  - discriminate.
  - reflexivity.
  - discriminate.
Defined.

(** * Keys and index *)

(** X14. The key of an option dictionary is its pairs in ascending order:
    a rearrangement of the pairs, unchanged by taking the key again; two
    lists of pairs have the same key exactly when one is a rearrangement
    of the other. *)
Theorem options_tuple_is_canonical (a b : list (string * string)) :
  (options_tuple a = options_tuple b ↔ a ≡ₚ b) ∧
  Sorted Py.item_le (options_tuple a) ∧
  options_tuple a ≡ₚ a ∧
  options_tuple (options_tuple a) = options_tuple a.
Proof.
  unfold options_tuple. split; [apply sorted_perm_eq|].
  split; [apply sorted_Sorted|]. split; [apply sorted_Permutation|].
  apply sorted_perm_eq, sorted_Permutation.
Qed.

(** X15. A store variant is only ever matched with a catalog variant of the
    answer that has the same option pairs: in an accepted candidate's list,
    each entry carries the id of such a variant. *)
Theorem matched_variant_has_the_same_options
  (variants : list catalog_variant) (store : list store_variant)
  (payload : list payload_variant) :
  evaluate_candidate (Some {| cd_variants := Some variants |}) store
    = Some payload →
  Forall2
    (λ store_variant entry,
       ∃ matched,
         matched ∈ variants ∧
         cv_options matched ≡ₚ sv_options store_variant ∧
         pv_id entry = cv_id matched)
    store payload.
Proof.
  intros (variants' & [= <-] & Hall)%evaluate_candidate_Some.
  eapply Forall2_impl; [exact Hall|].
  intros sv entry (matched & Hm & ->).
  apply new_variants_map_lookup_Some in Hm as [Hin Hkey].
  exists matched. split; [done|]. split; [|done].
  by apply sorted_perm_eq.
Qed.

Lemma matched_variant_has_the_same_options_witness :
  Forall2
    (λ store_variant entry,
       ∃ matched,
         matched ∈ [CatalogVariant 99 "S" Demo.size_S;
                    CatalogVariant 97 "M" Demo.size_M;
                    CatalogVariant 96 "L" Demo.black_size_L] ∧
         cv_options matched ≡ₚ sv_options store_variant ∧
         pv_id entry = cv_id matched)
    [Demo.large; Demo.small]
    [ {| pv_id := 96; pv_price := 2199; pv_is_enabled := true |};
      {| pv_id := 99; pv_price := 1999; pv_is_enabled := true |} ].
Proof.
  apply (matched_variant_has_the_same_options
           [CatalogVariant 99 "S" Demo.size_S;
            CatalogVariant 97 "M" Demo.size_M;
            CatalogVariant 96 "L" Demo.black_size_L]
           [Demo.large; Demo.small]).
  reflexivity.
Defined.

(** X16. When several variants of a catalog have the same option pairs, the
    index keeps the last of them: a variant is found under its own key
    if no variant after it in the catalog has the same pairs. *)
Theorem later_catalog_variant_wins (before after : list catalog_variant)
  (cv : catalog_variant) :
  (∀ cv', cv' ∈ after → ¬ cv_options cv' ≡ₚ cv_options cv) →
  new_variants_map (before ++ cv :: after)
    !! options_tuple (cv_options cv) = Some cv.
Proof.
  induction after as [|x after IH] using rev_ind; intros Hafter.
  - rewrite new_variants_map_snoc. apply lookup_insert_eq.
  - replace (before ++ cv :: after ++ [x])
      with ((before ++ cv :: after) ++ [x]) by by rewrite <-app_assoc.
    rewrite new_variants_map_snoc, lookup_insert_ne.
    + apply IH. intros cv' Hcv'. apply Hafter. rewrite elem_of_app. auto.
    + intros Hkey. apply sorted_perm_eq in Hkey.
      apply (Hafter x); [|done].
      rewrite elem_of_app, list_elem_of_singleton. auto.
Qed.

Lemma later_catalog_variant_wins_witness :
  new_variants_map
    [CatalogVariant 11 "S old" Demo.size_S;
     CatalogVariant 12 "S new" Demo.size_S;
     CatalogVariant 13 "M" Demo.size_M] !! options_tuple Demo.size_S
  = Some (CatalogVariant 12 "S new" Demo.size_S).
Proof.
  apply (later_catalog_variant_wins
           [CatalogVariant 11 "S old" Demo.size_S]
           [CatalogVariant 13 "M" Demo.size_M]
           (CatalogVariant 12 "S new" Demo.size_S)).
  intros cv' Hcv' Hperm. apply list_elem_of_singleton in Hcv' as ->.
  apply Permutation_singleton_l in Hperm. discriminate Hperm.
Defined.

(** X17. The loop over the store variants stops at the first variant
    without a match: the variants after it are not looked at, and the list
    built so far is the complete mapping of the variants before it. *)
Theorem first_unmatched_variant_stops_the_loop
  (index : gmap (list (string * string)) catalog_variant)
  (matched_prefix rest : list store_variant)
  (store_variant : store_variant) :
  Forall (λ sv, is_Some (index !! options_tuple (sv_options sv)))
         matched_prefix →
  index !! options_tuple (sv_options store_variant) = None →
  ∃ partial,
    map_store_variants index (matched_prefix ++ store_variant :: rest) []
      = (partial, false) ∧
    map_store_variants index matched_prefix [] = (partial, true) ∧
    length partial = length matched_prefix.
Proof.
  intros Hprefix Hnone.
  induction Hprefix as [|sv prefix [m Hm] _ (partial & Hrun & Hpre & Hlen)].
  - exists []. simpl. by rewrite Hnone.
  - exists (remapped_entry m sv :: partial).
    simpl app. rewrite !map_store_variants_cons, Hm, Hrun, Hpre. simpl.
    by rewrite Hlen.
Qed.

Lemma first_unmatched_variant_stops_the_loop_witness :
  map_store_variants
    (new_variants_map [CatalogVariant 98 "M" Demo.size_M])
    [Demo.medium; Demo.small; Demo.large] []
  = ([ {| pv_id := 98; pv_price := 2099; pv_is_enabled := false |} ], false).
Proof.
  destruct (first_unmatched_variant_stops_the_loop
              (new_variants_map [CatalogVariant 98 "M" Demo.size_M])
              [Demo.medium] [Demo.large] Demo.small)
    as (partial & Hrun & Hpre & _).
  - constructor; [|constructor]. by eexists.
  - reflexivity.
  - simpl app in Hrun. rewrite Hrun. f_equal.
    vm_compute in Hpre. by injection Hpre as <-.
Defined.
